(** * hetzner/util.py: IP address helpers

    A shallow embedding of [hetzner/util.py] and a verification of its
    documented behaviour.

    Python integers are unbounded, so they are embedded as [Z]; the bit
    operators [&], [|], [>>] and [<<] are [Z.land], [Z.lor], [Z.shiftr] and
    [Z.shiftl], with the faults Python adds to the shifts: a negative count
    raises [ValueError], and a left shift whose count is more than an
    integer object can hold raises [OverflowError].  A text is embedded as
    the [string] of its bytes (the [str] of Python 2, for which the module
    was written: see the [L] suffixes of its doctests; the UTF-8 encoding
    of a [str] of Python 3) and packed binary data as [list byte].
    Exceptions are embedded as the [Raise] branch of a small error monad. *)

From Stdlib Require Import ZArith NArith List Bool Lia.
From Stdlib Require Import Strings.String Strings.Ascii Strings.Byte.
Import ListNotations.

Local Open Scope Z_scope.

(** ** Exceptions and the error monad *)

(** The exceptions the module can raise, named after their Python classes.
    The payload-free constructors stand for the one message each of them
    carries in this module. *)
Inductive exn : Type :=
| ValueError_negative_shift_count
    (* int.__rshift__ / int.__lshift__ with a negative count *)
| OverflowError_shift_count
    (* int.__lshift__ with a count beyond what an integer can hold *)
| socket_error
    (* "illegal IP address string passed to inet_pton" *)
| struct_error
    (* struct.pack: number out of range for the format code *)
| embedded_null_error
    (* a text with a NUL byte passed where a C string is expected:
       TypeError on Python 2, ValueError on Python 3 *)
| ValueError_packed_length.
    (* "invalid length of packed IP address string" *)

Inductive result (A : Type) : Type :=
| Ok (a : A)
| Raise (e : exn).

Arguments Ok {A} a.
Arguments Raise {A} e.

Definition bind {A B : Type} (m : result A) (k : A -> result B) : result B :=
  match m with
  | Ok a => k a
  | Raise e => Raise e
  end.

Definition fmap {A B : Type} (f : A -> B) (m : result A) : result B :=
  bind m (fun a => Ok (f a)).

Declare Scope py_scope.
Delimit Scope py_scope with py.
Notation "x <- m ;; k" := (bind m (fun x => k))
  (at level 61, m at next level, right associativity) : py_scope.
Notation "' pat <- m ;; k" := (bind m (fun x => match x with pat => k end))
  (at level 61, pat pattern, m at next level, right associativity) : py_scope.
Local Open Scope py_scope.

Definition is_ok {A : Type} (m : result A) : bool :=
  match m with Ok _ => true | Raise _ => false end.

(** ** Python integer shifts *)

(** The size of an object is counted in a [Py_ssize_t], of 64 bits on the
    usual builds, so no integer has more than [MAX_LONG_BITS] bits. *)
Definition PY_SSIZE_T_MAX : Z := 2 ^ 63 - 1.
Definition MAX_LONG_BITS : Z := 8 * PY_SSIZE_T_MAX.

(** [a >> n]: a count that is too large for [a << n] is harmless here, the
    result is 0 (or -1 for a negative [a]). *)
Definition py_rshift (a n : Z) : result Z :=
  if n <? 0 then Raise ValueError_negative_shift_count else Ok (Z.shiftr a n).

(** [a << n]: zero stays zero whatever the count; otherwise the result has
    more than [n] bits, and beyond [MAX_LONG_BITS] the interpreter raises
    [OverflowError].  Below that bound the memory is taken to suffice (the
    interpreter raises [MemoryError] where it does not). *)
Definition py_lshift (a n : Z) : result Z :=
  if n <? 0 then Raise ValueError_negative_shift_count
  else if a =? 0 then Ok 0
  else if MAX_LONG_BITS <? n then Raise OverflowError_shift_count
  else Ok (Z.shiftl a n).

(** ** RangeCalculator: [get_ipv4_range] and [get_ipv6_range] *)

Definition get_ipv4_range (numeric_netaddr prefix_len : Z) : result (Z * Z) :=
  let mask_inverted := 32 - prefix_len in
  shifted <- py_rshift 0xffffffff mask_inverted ;;
  mask_bin <- py_lshift shifted mask_inverted ;;
  let range_start := Z.land numeric_netaddr mask_bin in
  bit <- py_lshift 1 mask_inverted ;;
  let range_end := Z.lor range_start (bit - 1) in
  Ok (range_start, range_end).

Definition get_ipv6_range (numeric_netaddr prefix_len : Z) : result (Z * Z) :=
  let mask_bin_full := 0xffffffffffffffffffffffffffffffff in
  let mask_inverted := 128 - prefix_len in
  shifted <- py_rshift mask_bin_full mask_inverted ;;
  mask_bin <- py_lshift shifted mask_inverted ;;
  let range_start := Z.land numeric_netaddr mask_bin in
  bit <- py_lshift 1 mask_inverted ;;
  let range_end := Z.lor range_start (bit - 1) in
  Ok (range_start, range_end).

(** The two address families ([socket.AF_INET], [socket.AF_INET6]), the
    width of their addresses and the range function of each. *)
Inductive address_family : Type := AF_INET | AF_INET6.

Definition width (af : address_family) : Z :=
  match af with AF_INET => 32 | AF_INET6 => 128 end.

Definition get_range (af : address_family) : Z -> Z -> result (Z * Z) :=
  match af with AF_INET => get_ipv4_range | AF_INET6 => get_ipv6_range end.

(** Both range functions are one computation over the width [w]. *)
Definition range_at (w numeric_netaddr prefix_len : Z) : result (Z * Z) :=
  let mask_inverted := w - prefix_len in
  shifted <- py_rshift (Z.ones w) mask_inverted ;;
  mask_bin <- py_lshift shifted mask_inverted ;;
  let range_start := Z.land numeric_netaddr mask_bin in
  bit <- py_lshift 1 mask_inverted ;;
  let range_end := Z.lor range_start (bit - 1) in
  Ok (range_start, range_end).


(** ** The C library routines behind [socket.inet_pton] and [socket.inet_ntop]

    [hetzner/util.py] delegates text parsing and formatting to
    [socket.inet_pton] and [socket.inet_ntop], which CPython forwards to the
    C library.  The functions below embed the reference implementation of
    these routines (inet_pton.c and inet_ntop.c of ISC BIND, by Paul Vixie,
    which the BSD and GNU C libraries ship), with the limit of four
    hexadecimal digits per group that the GNU C library has added to it:
    [inet_pton4], [inet_pton6], [inet_ntop4] and [inet_ntop6].  The doctests
    of [hetzner/util.py] are replayed on them further down.

    A C string is embedded as a [string] without NUL (CPython refuses a
    text with an embedded NUL before the C routine is entered); [u_char]
    buffers are [list byte]; [u_int] values are [N]. *)

Local Open Scope N_scope.

(** [(u_char) n]: the low eight bits. *)
Definition u8 (n : N) : byte :=
  match Byte.of_N (n mod 256) with
  | Some b => b
  | None => x00
  end.

Definition char_code (c : ascii) : N := N_of_ascii c.

(** [sprintf] with the formats [%u] and [%x]: the digits of [n] in [base],
    most significant first, produced from the least significant one
    backwards as the C library does.  [fuel] bounds the number of digits;
    10 digits print every 32-bit [u_int] in base 10, 8 in base 16. *)
Definition xdigits : string := "0123456789abcdef".

Definition digit_char (d : N) : ascii :=
  match String.get (N.to_nat d) xdigits with
  | Some c => c
  | None => "?"%char
  end.

Fixpoint utoa (base : N) (fuel : nat) (n : N) (acc : string) : string :=
  match fuel with
  | O => acc
  | S fuel' =>
      let acc' := String (digit_char (n mod base)) acc in
      if n / base =? 0 then acc' else utoa base fuel' (n / base) acc'
  end.

Definition sprintf_u (n : N) : string := utoa 10 10 n EmptyString.
Definition sprintf_x (n : N) : string := utoa 16 8 n EmptyString.

(** *** inet_ntop4: [sprintf(tmp, "%u.%u.%u.%u", src[0], ..., src[3])] *)
Definition inet_ntop4 (src : list byte) : string :=
  (sprintf_u (Byte.to_N (nth 0 src x00)) ++ "." ++
   sprintf_u (Byte.to_N (nth 1 src x00)) ++ "." ++
   sprintf_u (Byte.to_N (nth 2 src x00)) ++ "." ++
   sprintf_u (Byte.to_N (nth 3 src x00)))%string.

(** *** inet_pton4

    The state of the scanning loop: [tmp] up to and excluding [*tp]
    ([p4_done]), the octet under construction [*tp] ([p4_cur]), and the
    locals [saw_digit] and [octets]. *)
Record pton4_state : Type := mk_pton4 {
  p4_done : list byte;
  p4_cur : N;
  p4_saw_digit : bool;
  p4_octets : nat
}.

Definition is_digit (ch : ascii) : bool :=
  (char_code "0" <=? char_code ch) && (char_code ch <=? char_code "9").

Fixpoint pton4_loop (src : string) (st : pton4_state) : option pton4_state :=
  match src with
  | EmptyString => Some st
  | String ch src' =>
      if is_digit ch then
        let new := p4_cur st * 10 + (char_code ch - char_code "0") in
        if p4_saw_digit st && (p4_cur st =? 0) then None
        else if 255 <? new then None
        else if p4_saw_digit st then
          pton4_loop src'
            (mk_pton4 (p4_done st) new true (p4_octets st))
        else if (4 <? S (p4_octets st))%nat then None
        else
          pton4_loop src'
            (mk_pton4 (p4_done st) new true (S (p4_octets st)))
      else if Ascii.eqb ch "." && p4_saw_digit st then
        if (p4_octets st =? 4)%nat then None
        else
          pton4_loop src'
            (mk_pton4 (p4_done st ++ [u8 (p4_cur st)]) 0 false (p4_octets st))
      else None
  end.

Definition inet_pton4 (src : string) : option (list byte) :=
  match pton4_loop src (mk_pton4 [] 0 false 0) with
  | Some st =>
      if (p4_octets st <? 4)%nat then None
      else Some (p4_done st ++ [u8 (p4_cur st)])
  | None => None
  end.

(** *** inet_pton6

    [p6_out] is [tmp] up to [tp] (so [tp - tmp] is its length; the rest of
    [tmp] is still zero), [p6_colonp] the offset of the [::] in it,
    [p6_curtok] the text from the start of the current token on,
    [p6_xdigits_seen] the number of digits read of the current group. *)
Record pton6_state : Type := mk_pton6 {
  p6_out : list byte;
  p6_colonp : option nat;
  p6_curtok : string;
  p6_xdigits_seen : nat;
  p6_val : N
}.

Definition NS_IN6ADDRSZ : nat := 16.
Definition NS_INADDRSZ : nat := 4.
Definition NS_INT16SZ : nat := 2.

(** [tolower] in the C locale. *)
Definition tolower (ch : ascii) : ascii :=
  if (char_code "A" <=? char_code ch) && (char_code ch <=? char_code "Z")
  then ascii_of_N (char_code ch + 32)
  else ch.

(** [strchr(s, ch) - s] for [ch] other than NUL. *)
Fixpoint strchr (s : string) (ch : ascii) : option N :=
  match s with
  | EmptyString => None
  | String c s' =>
      if Ascii.eqb c ch then Some 0
      else match strchr s' ch with
           | Some i => Some (N.succ i)
           | None => None
           end
  end.

(** [*tp++ = (u_char) (val >> 8) & 0xff; *tp++ = (u_char) val & 0xff] *)
Definition put16 (out : list byte) (val : N) : list byte :=
  out ++ [u8 (N.land (N.shiftr val 8) 255); u8 (N.land val 255)].

Fixpoint pton6_loop (src : string) (st : pton6_state) : option pton6_state :=
  match src with
  | EmptyString => Some st
  | String c src' =>
      let ch := tolower c in
      match strchr xdigits ch with
      | Some d =>
          if (p6_xdigits_seen st =? 4)%nat then None
          else
            let val := N.lor (N.shiftl (p6_val st) 4) d in
            if 0xffff <? val then None
            else
              pton6_loop src'
                (mk_pton6 (p6_out st) (p6_colonp st) (p6_curtok st)
                          (S (p6_xdigits_seen st)) val)
      | None =>
          if Ascii.eqb ch ":" then
            if (p6_xdigits_seen st =? 0)%nat then
              match p6_colonp st with
              | Some _ => None
              | None =>
                  pton6_loop src'
                    (mk_pton6 (p6_out st) (Some (List.length (p6_out st))) src'
                              (p6_xdigits_seen st) (p6_val st))
              end
            else
              match src' with
              | EmptyString => None
              | _ =>
                  if (NS_IN6ADDRSZ <? List.length (p6_out st) + NS_INT16SZ)%nat
                  then None
                  else
                    pton6_loop src'
                      (mk_pton6 (put16 (p6_out st) (p6_val st))
                                (p6_colonp st) src' 0 0)
              end
          else if Ascii.eqb ch "."
                  && (List.length (p6_out st) + NS_INADDRSZ <=? NS_IN6ADDRSZ)%nat
          then
            match inet_pton4 (p6_curtok st) with
            | Some quad =>
                (* break: the NUL was seen by inet_pton4 *)
                Some (mk_pton6 (p6_out st ++ quad) (p6_colonp st)
                               (p6_curtok st) 0 (p6_val st))
            | None => None
            end
          else None
      end
  end.

(** After the loop: store a pending group, then expand the [::]. *)
Definition pton6_finish (st : pton6_state) : option (list byte) :=
  let out :=
    if (0 <? p6_xdigits_seen st)%nat then
      if (NS_IN6ADDRSZ <? List.length (p6_out st) + NS_INT16SZ)%nat then None
      else Some (put16 (p6_out st) (p6_val st))
    else Some (p6_out st) in
  match out with
  | None => None
  | Some out =>
      match p6_colonp st with
      | Some colonp =>
          if (List.length out =? NS_IN6ADDRSZ)%nat then None
          else
            Some (firstn colonp out
                  ++ repeat x00 (NS_IN6ADDRSZ - List.length out)
                  ++ skipn colonp out)
      | None =>
          if (List.length out =? NS_IN6ADDRSZ)%nat then Some out else None
      end
  end.

Definition inet_pton6 (src : string) : option (list byte) :=
  (* Leading :: requires some special handling. *)
  let start :=
    match src with
    | String ":" rest =>
        match rest with
        | String ":" _ => Some rest
        | _ => None
        end
    | _ => Some src
    end in
  match start with
  | None => None
  | Some src =>
      match pton6_loop src (mk_pton6 [] None src 0 0) with
      | Some st => pton6_finish st
      | None => None
      end
  end.

(** *** inet_ntop6 *)

(** [words[i / 2] = (src[i] << 8) | src[i + 1]] *)
Fixpoint words_of (src : list byte) : list N :=
  match src with
  | hi :: lo :: rest =>
      N.lor (N.shiftl (Byte.to_N hi) 8) (Byte.to_N lo) :: words_of rest
  | _ => []
  end.

(** A run of zero words: [base] and [len]; [None] is [base == -1]. *)
Record run : Type := mk_run { base : nat; len : nat }.

Definition better (cur best : option run) : option run :=
  match cur with
  | None => best
  | Some c =>
      match best with
      | None => cur
      | Some b => if (len b <? len c)%nat then cur else best
      end
  end.

(** The scan for the longest run of zero words, from word [i] on. *)
Fixpoint scan_runs (ws : list N) (i : nat) (cur best : option run)
  : option run :=
  match ws with
  | [] => better cur best
  | w :: ws' =>
      if w =? 0 then
        match cur with
        | None => scan_runs ws' (S i) (Some (mk_run i 1)) best
        | Some c => scan_runs ws' (S i) (Some (mk_run (base c) (S (len c)))) best
        end
      else scan_runs ws' (S i) None (better cur best)
  end.

(** [if (best.base != -1 && best.len < 2) best.base = -1] *)
Definition best_run (ws : list N) : option run :=
  match scan_runs ws 0 None None with
  | Some b => if (len b <? 2)%nat then None else Some b
  | None => None
  end.

Definition in_run (best : option run) (i : nat) : bool :=
  match best with
  | Some b => (base b <=? i)%nat && (i <? base b + len b)%nat
  | None => false
  end.

(** "Is this address an encapsulated IPv4?" *)
Definition encapsulated_v4 (best : option run) (words : list N) (i : nat)
  : bool :=
  match best with
  | Some b =>
      (i =? 6)%nat && (base b =? 0)%nat
      && ((len b =? 6)%nat || ((len b =? 5)%nat && (nth 5 words 0 =? 0xffff)))
  | None => false
  end.

(** "Was it a trailing run of 0x00's?" *)
Definition trailing_colon (best : option run) : string :=
  match best with
  | Some b => if (base b + len b =? 8)%nat then ":" else ""
  | None => ""
  end.

(** The formatting loop, from word [i] on ([ws] are the words from [i]). *)
Fixpoint ntop6_loop (src : list byte) (words : list N) (best : option run)
    (i : nat) (ws : list N) : string :=
  match ws with
  | [] => trailing_colon best
  | w :: ws' =>
      if in_run best i then
        ((if match best with
              | Some b => (i =? base b)%nat
              | None => false
              end
          then ":" else "")
         ++ ntop6_loop src words best (S i) ws')%string
      else
        ((if (i =? 0)%nat then "" else ":")
         ++ (if encapsulated_v4 best words i
             then (* break *)
               inet_ntop4 (skipn 12 src) ++ trailing_colon best
             else sprintf_x w ++ ntop6_loop src words best (S i) ws'))%string
  end.

Definition inet_ntop6 (src : list byte) : string :=
  let words := words_of src in
  ntop6_loop src words (best_run words) 0 words.

(** ** The [socket] and [struct] functions the module calls *)

Local Open Scope Z_scope.

(** [socket.inet_pton(af, ip)] hands the text to the C routine as a C
    string, so a text with a NUL byte is refused first ([TypeError] on
    Python 2, [ValueError] on Python 3); a failure of the routine is
    [socket.error] ([OSError] on Python 3).  A [str] of Python 3 without
    UTF-8 encoding (one with a lone surrogate) raises [UnicodeEncodeError]
    before that: it is no [string] of bytes, and outside this embedding. *)
Fixpoint has_nul (s : string) : bool :=
  match s with
  | EmptyString => false
  | String c s' => Ascii.eqb c Ascii.zero || has_nul s'
  end.

Definition addr_size (af : address_family) : nat :=
  match af with AF_INET => 4%nat | AF_INET6 => 16%nat end.

Definition socket_inet_pton (af : address_family) (ip : string)
  : result (list byte) :=
  if has_nul ip then Raise embedded_null_error
  else
    match match af with
          | AF_INET => inet_pton4 ip
          | AF_INET6 => inet_pton6 ip
          end with
    | Some packed => Ok packed
    | None => Raise socket_error
    end.

Definition socket_inet_ntop (af : address_family) (packed : list byte)
  : result string :=
  if negb (List.length packed =? addr_size af)%nat
  then Raise ValueError_packed_length
  else
    Ok match af with
       | AF_INET => inet_ntop4 packed
       | AF_INET6 => inet_ntop6 packed
       end.

(** Big-endian ("network", [!]) encoding of [n] on [k] bytes. *)
Fixpoint be_bytes (k : nat) (n : Z) : list byte :=
  match k with
  | O => []
  | S k' => be_bytes k' (Z.shiftr n 8) ++ [u8 (Z.to_N (Z.land n 255))]
  end.

Definition be_value (bs : list byte) : Z :=
  fold_left (fun acc b => acc * 256 + Z.of_N (Byte.to_N b)) bs 0.

(** [struct.pack('!L', n)] *)
Definition struct_pack_L (n : Z) : result (list byte) :=
  if (0 <=? n) && (n <=? 4294967295) then Ok (be_bytes 4 n)
  else Raise struct_error.

(** [struct.pack('!QQ', high, low)] *)
Definition struct_pack_QQ (high low : Z) : result (list byte) :=
  if (0 <=? high) && (high <=? 18446744073709551615)
     && (0 <=? low) && (low <=? 18446744073709551615)
  then Ok (be_bytes 8 high ++ be_bytes 8 low)
  else Raise struct_error.

(** [struct.unpack('!L', s)[0]] *)
Definition struct_unpack_L (s : list byte) : result Z :=
  if (List.length s =? 4)%nat then Ok (be_value s) else Raise struct_error.

(** [struct.unpack('!QQ', s)] *)
Definition struct_unpack_QQ (s : list byte) : result (Z * Z) :=
  if (List.length s =? 16)%nat
  then Ok (be_value (firstn 8 s), be_value (skipn 8 s))
  else Raise struct_error.

(** ** AddressCodec and FamilyDetector: the functions of [hetzner/util.py] *)

Definition parse_ipv4 (addr : string) : result Z :=
  binary_ip <- socket_inet_pton AF_INET addr ;;
  struct_unpack_L binary_ip.

Definition parse_ipv6 (addr : string) : result Z :=
  binary_ip <- socket_inet_pton AF_INET6 addr ;;
  ' (high, low) <- struct_unpack_QQ binary_ip ;;
  Ok (Z.lor (Z.shiftl high 64) low).

(** The two shapes [parse_ipaddr] returns: the tuple [(is_ipv6, numeric)]
    when no family is given, the bare number otherwise. *)
Inductive parsed : Type :=
| Tagged (is_ipv6 : bool) (numeric : Z)
| Bare (numeric : Z).

(** [try: body except socket.error: handler] *)
Definition try_except_socket_error {A : Type} (body : result A)
    (handler : result A) : result A :=
  match body with
  | Raise socket_error => handler
  | other => other
  end.

Definition parse_ipaddr (addr : string) (is_ipv6 : option bool)
  : result parsed :=
  match is_ipv6 with
  | None =>
      try_except_socket_error
        (fmap (Tagged false) (parse_ipv4 addr))
        (fmap (Tagged true) (parse_ipv6 addr))
  | Some true => fmap Bare (parse_ipv6 addr)
  | Some false => fmap Bare (parse_ipv4 addr)
  end.

Definition ipv4_bin2addr (numeric_addr : Z) : result string :=
  packed <- struct_pack_L numeric_addr ;;
  socket_inet_ntop AF_INET packed.

Definition ipv6_bin2addr (numeric_addr : Z) : result string :=
  let high := Z.shiftr numeric_addr 64 in
  let low := Z.land numeric_addr 0xffffffffffffffff in
  packed <- struct_pack_QQ high low ;;
  socket_inet_ntop AF_INET6 packed.


(** ** Definitions used to state the properties *)

(** The formatter and the parser of each family. *)
Definition bin2addr (af : address_family) : Z -> result string :=
  match af with AF_INET => ipv4_bin2addr | AF_INET6 => ipv6_bin2addr end.

Definition parse_family (af : address_family) : string -> result Z :=
  match af with AF_INET => parse_ipv4 | AF_INET6 => parse_ipv6 end.


(** The flag [parse_ipaddr] reports for each family. *)
Definition is_ipv6_of (af : address_family) : bool :=
  match af with AF_INET => false | AF_INET6 => true end.

(** The [i]-th 16-bit group of a 128-bit number, counted from the most
    significant one: [(v >> 16 * (7 - i)) & 0xffff]. *)
Definition group (v i : Z) : Z := Z.land (Z.shiftr v (16 * (7 - i))) 0xffff.

(** A text with its letters [A .. Z] replaced by [a .. z]. *)
Fixpoint lowercase (s : string) : string :=
  match s with
  | EmptyString => EmptyString
  | String c s' => String (tolower c) (lowercase s')
  end.

Lemma get_range_at (af : address_family) : get_range af = range_at (width af).
Proof. destruct af; reflexivity. Qed.

Lemma get_ipv4_range_at : get_ipv4_range = range_at 32.
Proof. reflexivity. Qed.

Lemma get_ipv6_range_at : get_ipv6_range = range_at 128.
Proof. reflexivity. Qed.

Lemma ones_pow2 (n : Z) : Z.ones n = 2 ^ n - 1.
Proof. now rewrite Z.ones_equiv, <- Z.sub_1_r. Qed.

Lemma pow2_pos (n : Z) : 0 <= n -> 0 < 2 ^ n.
Proof. intros; apply Z.pow_pos_nonneg; lia. Qed.

Lemma width_pos (af : address_family) : 0 < width af.
Proof. destruct af; reflexivity. Qed.

Lemma width_max (af : address_family) : width af <= MAX_LONG_BITS.
Proof. destruct af; discriminate. Qed.

(** A left shift by a count that an integer can hold. *)
Lemma py_lshift_ok (a n : Z) :
  0 <= n <= MAX_LONG_BITS -> py_lshift a n = Ok (Z.shiftl a n).
Proof.
  intros Hn. unfold py_lshift.
  destruct (Z.ltb_spec n 0); [lia |].
  destruct (Z.eqb_spec a 0) as [-> | _]; [now rewrite Z.shiftl_0_l |].
  destruct (Z.ltb_spec MAX_LONG_BITS n); [lia | reflexivity].
Qed.

(** A left shift of a non-zero number by a greater count. *)
Lemma py_lshift_overflow (a n : Z) :
  a <> 0 -> MAX_LONG_BITS < n ->
  py_lshift a n = Raise OverflowError_shift_count.
Proof.
  intros Ha Hn. unfold py_lshift, MAX_LONG_BITS, PY_SSIZE_T_MAX in *.
  destruct (Z.ltb_spec n 0); [lia |].
  destruct (Z.eqb_spec a 0); [contradiction |].
  destruct (Z.ltb_spec (8 * (2 ^ 63 - 1)) n); [reflexivity | lia].
Qed.

Section Range.
Variable w : Z.
Hypothesis w_pos : 0 < w.
Hypothesis w_max : w <= MAX_LONG_BITS.

Lemma range_at_too_long net p :
  w < p -> range_at w net p = Raise ValueError_negative_shift_count.
Proof.
  intros Hp. unfold range_at, py_rshift.
  destruct (Z.ltb_spec (w - p) 0); [reflexivity | lia].
Qed.

Lemma range_at_shifts net p :
  p <= w -> w - p <= MAX_LONG_BITS ->
  range_at w net p =
    Ok (Z.land net (Z.shiftl (Z.shiftr (Z.ones w) (w - p)) (w - p)),
        Z.lor (Z.land net (Z.shiftl (Z.shiftr (Z.ones w) (w - p)) (w - p)))
              (Z.ones (w - p))).
Proof.
  intros Hp Hmax. unfold range_at, py_rshift.
  destruct (Z.ltb_spec (w - p) 0); [lia |]. cbn [bind].
  rewrite !py_lshift_ok by lia. cbn [bind].
  rewrite Z.shiftl_1_l.
  now rewrite (ones_pow2 (w - p)).
Qed.

(** The start of a range has no bit below [w - p]. *)
Lemma start_aligned net p :
  p <= w ->
  Z.land (Z.land net (Z.shiftl (Z.shiftr (Z.ones w) (w - p)) (w - p)))
         (Z.ones (w - p)) = 0.
Proof.
  intros Hp. apply Z.bits_inj'. intros i Hi.
  rewrite !Z.land_spec, Z.bits_0.
  destruct (Z.ltb_spec i (w - p)) as [Hlt | Hge].
  - rewrite Z.shiftl_spec_low by lia.
    now rewrite andb_false_r.
  - rewrite Z.ones_spec_high by lia. apply andb_false_r.
Qed.

Lemma range_at_negative net p :
  p < 0 -> w - p <= MAX_LONG_BITS ->
  range_at w net p = Ok (0, 2 ^ (w - p) - 1).
Proof.
  intros Hp Hmax. rewrite range_at_shifts by lia.
  assert (Hz : Z.shiftr (Z.ones w) (w - p) = 0).
  { apply Z.shiftr_eq_0.
    - rewrite ones_pow2. pose proof (pow2_pos w). lia.
    - rewrite Z.ones_equiv, Z.log2_pred_pow2 by lia. lia. }
  now rewrite Hz, Z.shiftl_0_l, Z.land_0_r, Z.lor_0_l, ones_pow2.
Qed.

(** Beyond what an integer can hold, [1 << mask_inverted] fails. *)
Lemma range_at_overflow net p :
  MAX_LONG_BITS < w - p ->
  range_at w net p = Raise OverflowError_shift_count.
Proof.
  intros Hp. unfold range_at, py_rshift.
  assert (Hcount : 0 < w - p)
    by (unfold MAX_LONG_BITS, PY_SSIZE_T_MAX in Hp; lia).
  destruct (Z.ltb_spec (w - p) 0); [lia |]. cbn [bind].
  assert (Hz : Z.shiftr (Z.ones w) (w - p) = 0).
  { apply Z.shiftr_eq_0.
    - rewrite ones_pow2. pose proof (pow2_pos w). lia.
    - rewrite Z.ones_equiv, Z.log2_pred_pow2 by lia. lia. }
  rewrite Hz. unfold py_lshift at 1.
  destruct (Z.ltb_spec (w - p) 0); [lia |]. cbn [Z.eqb bind].
  now rewrite py_lshift_overflow by lia.
Qed.

Lemma range_at_zero net : range_at w net 0 = Ok (0, 2 ^ w - 1).
Proof.
  rewrite range_at_shifts by lia. rewrite Z.sub_0_r.
  assert (Hz : Z.shiftr (Z.ones w) w = 0).
  { apply Z.bits_inj'. intros i Hi.
    rewrite Z.shiftr_spec, Z.bits_0 by lia.
    apply Z.ones_spec_high. lia. }
  now rewrite Hz, Z.shiftl_0_l, Z.land_0_r, Z.lor_0_l, ones_pow2.
Qed.

Lemma range_at_full net :
  0 <= net < 2 ^ w -> range_at w net w = Ok (net, net).
Proof.
  intros Hnet. rewrite range_at_shifts by lia.
  rewrite Z.sub_diag, Z.shiftr_0_r, Z.shiftl_0_r.
  rewrite Z.land_ones by lia. rewrite Z.mod_small by lia.
  change (Z.ones 0) with 0. now rewrite Z.lor_0_r.
Qed.
End Range.

(** * Bytes and big-endian packing *)

Lemma u8_to_N (n : N) : Byte.to_N (u8 n) = (n mod 256)%N.
Proof.
  unfold u8. destruct (Byte.of_N (n mod 256)) as [b |] eqn:E.
  - now apply Byte.to_of_N.
  - apply Byte.of_N_None_iff in E.
    pose proof (N.mod_upper_bound n 256 ltac:(discriminate)). lia.
Qed.

Lemma u8_of_byte (b : byte) : u8 (Byte.to_N b) = b.
Proof.
  unfold u8. pose proof (Byte.to_N_bounded b) as Hb.
  rewrite N.mod_small by lia. now rewrite Byte.of_to_N.
Qed.

Lemma byte_to_N_lt (b : byte) : (Byte.to_N b < 256)%N.
Proof. pose proof (Byte.to_N_bounded b). lia. Qed.

Lemma be_bytes_length (k : nat) (n : Z) : List.length (be_bytes k n) = k.
Proof.
  revert n. induction k as [| k IH]; intros n; cbn; [reflexivity |].
  rewrite length_app, IH. cbn. lia.
Qed.

Lemma be_value_snoc (bs : list byte) (b : byte) :
  be_value (bs ++ [b]) = be_value bs * 256 + Z.of_N (Byte.to_N b).
Proof. unfold be_value. now rewrite fold_left_app. Qed.

Lemma be_value_bound (bs : list byte) :
  0 <= be_value bs < 2 ^ (8 * Z.of_nat (List.length bs)).
Proof.
  induction bs as [| b bs IH] using rev_ind; [cbn; lia |].
  rewrite be_value_snoc, length_app. cbn [List.length].
  replace (8 * Z.of_nat (List.length bs + 1))
    with (8 * Z.of_nat (List.length bs) + 8) by lia.
  rewrite Z.pow_add_r by lia. change (2 ^ 8) with 256.
  pose proof (byte_to_N_lt b). lia.
Qed.

Lemma be_value_be_bytes (k : nat) (n : Z) :
  be_value (be_bytes k n) = n mod 2 ^ (8 * Z.of_nat k).
Proof.
  revert n. induction k as [| k IH]; intros n.
  - cbn. now rewrite Z.mod_1_r.
  - cbn [be_bytes]. rewrite be_value_snoc, IH, u8_to_N.
    change 255 with (Z.ones 8). rewrite Z.land_ones by lia.
    rewrite Z.shiftr_div_pow2 by lia. change (2 ^ 8) with 256.
    assert (H256 : 0 <= n mod 256 < 256) by (apply Z.mod_pos_bound; lia).
    rewrite N.mod_small by lia. rewrite Z2N.id by lia.
    replace (8 * Z.of_nat (S k)) with (8 + 8 * Z.of_nat k) by lia.
    rewrite Z.pow_add_r by lia. change (2 ^ 8) with 256.
    assert (Hpos : 0 < 2 ^ (8 * Z.of_nat k)) by (apply pow2_pos; lia).
    rewrite (Z.rem_mul_r n 256 (2 ^ (8 * Z.of_nat k))) by lia. lia.
Qed.

Lemma be_bytes_be_value (bs : list byte) :
  be_bytes (List.length bs) (be_value bs) = bs.
Proof.
  induction bs as [| b bs IH] using rev_ind; [reflexivity |].
  rewrite length_app, Nat.add_comm. cbn [List.length Nat.add be_bytes].
  rewrite be_value_snoc.
  pose proof (byte_to_N_lt b) as Hb.
  change 255 with (Z.ones 8). rewrite Z.land_ones by lia.
  rewrite Z.shiftr_div_pow2 by lia. change (2 ^ 8) with 256.
  rewrite Z.add_comm, Z.div_add by lia. rewrite Z.div_small by lia.
  rewrite Z.add_0_l, IH.
  rewrite Z.mod_add by lia. rewrite Z.mod_small by lia.
  rewrite N2Z.id, u8_of_byte. reflexivity.
Qed.

(** Text produced by [inet_ntop] has no NUL. *)
Lemma has_nul_app (s t : string) :
  has_nul (s ++ t) = has_nul s || has_nul t.
Proof.
  induction s as [| c s IH]; cbn; [reflexivity |].
  now rewrite IH, orb_assoc.
Qed.

(** * The scanning loop of inet_pton4 *)

(** What the loop maintains: [octets] counts the octets started, at most
    four, and after a dot fewer than four. *)
Definition pton4_inv (st : pton4_state) : Prop :=
  (p4_octets st
   = List.length (p4_done st) + (if p4_saw_digit st then 1 else 0))%nat
  /\ (p4_octets st <= 4)%nat
  /\ (p4_saw_digit st = false -> p4_octets st < 4)%nat.

Lemma pton4_loop_inv (src : string) :
  forall st st',
    pton4_inv st -> pton4_loop src st = Some st' -> pton4_inv st'.
Proof.
  induction src as [| ch src IH]; intros st st' Hinv H;
    cbn [pton4_loop] in H.
  - now inversion H; subst.
  - destruct Hinv as (Hlen & Hle & Hdot).
    destruct (is_digit ch).
    + destruct (p4_saw_digit st && (p4_cur st =? 0)%N); [discriminate |].
      destruct (255 <? _)%N; [discriminate |].
      destruct (p4_saw_digit st) eqn:Hsaw.
      * apply IH in H; [exact H |]. unfold pton4_inv; cbn.
        repeat split; [lia | lia | discriminate].
      * destruct (4 <? S (p4_octets st))%nat eqn:Hfour; [discriminate |].
        apply Nat.ltb_ge in Hfour.
        apply IH in H; [exact H |]. unfold pton4_inv; cbn.
        repeat split; [lia | lia | discriminate].
    + destruct (Ascii.eqb ch "." && p4_saw_digit st) eqn:Hd; [| discriminate].
      apply andb_true_iff in Hd as [_ Hsaw]. rewrite Hsaw in Hlen.
      destruct (p4_octets st =? 4)%nat eqn:Hfour; [discriminate |].
      apply Nat.eqb_neq in Hfour.
      apply IH in H; [exact H |]. unfold pton4_inv; cbn.
      rewrite length_app. cbn. repeat split; lia.
Qed.

Lemma inet_pton4_length (src : string) (quad : list byte) :
  inet_pton4 src = Some quad -> List.length quad = 4%nat.
Proof.
  unfold inet_pton4. intros H.
  destruct (pton4_loop src (mk_pton4 [] 0 false 0)) as [st |] eqn:E;
    [| discriminate].
  apply pton4_loop_inv in E; [| unfold pton4_inv; cbn; lia].
  destruct E as (Hlen & Hle & Hdot).
  destruct (p4_octets st <? 4)%nat eqn:Hfour; [discriminate |].
  apply Nat.ltb_ge in Hfour.
  inversion H; subst. rewrite length_app. cbn.
  destruct (p4_saw_digit st); [lia |].
  specialize (Hdot eq_refl). lia.
Qed.

Lemma be_bytes_mod (k : nat) (n : Z) :
  be_bytes k (n mod 2 ^ (8 * Z.of_nat k)) = be_bytes k n.
Proof.
  rewrite <- be_value_be_bytes.
  pose proof (be_bytes_be_value (be_bytes k n)) as H.
  now rewrite be_bytes_length in H.
Qed.

Lemma be_bytes_app (j k : nat) (n : Z) :
  be_bytes (j + k) n
  = be_bytes j (Z.shiftr n (8 * Z.of_nat k)) ++ be_bytes k n.
Proof.
  revert n. induction k as [| k IH]; intros n.
  - rewrite Nat.add_0_r. cbn [be_bytes]. rewrite app_nil_r.
    change (8 * Z.of_nat 0) with 0. now rewrite Z.shiftr_0_r.
  - rewrite Nat.add_succ_r. cbn [be_bytes]. rewrite IH, <- app_assoc.
    rewrite Z.shiftr_shiftr by lia.
    replace (8 + 8 * Z.of_nat k) with (8 * Z.of_nat (S k)) by lia.
    reflexivity.
Qed.

(** * What the module's four codec functions compute *)

Lemma socket_inet_pton_length (af : address_family) (ip : string)
    (packed : list byte) :
  socket_inet_pton af ip = Ok packed ->
  af = AF_INET -> List.length packed = 4%nat.
Proof.
  unfold socket_inet_pton. intros H ->.
  destruct (has_nul ip); [discriminate |].
  destruct (inet_pton4 ip) as [quad |] eqn:E; [| discriminate].
  inversion H; subst. now apply inet_pton4_length in E.
Qed.

(** [parse_ipv4] fails exactly as [socket.inet_pton] does. *)
Lemma parse_ipv4_cases (addr : string) :
  (has_nul addr = true /\ parse_ipv4 addr = Raise embedded_null_error)
  \/ (has_nul addr = false /\ inet_pton4 addr = None
      /\ parse_ipv4 addr = Raise socket_error)
  \/ (exists quad,
        has_nul addr = false /\ inet_pton4 addr = Some quad
        /\ List.length quad = 4%nat
        /\ parse_ipv4 addr = Ok (be_value quad)).
Proof.
  unfold parse_ipv4, socket_inet_pton.
  destruct (has_nul addr); [left; split; reflexivity |].
  destruct (inet_pton4 addr) as [quad |] eqn:E.
  - right; right. exists quad. pose proof (inet_pton4_length _ _ E) as Hl.
    repeat split; try assumption. cbn. unfold struct_unpack_L.
    now rewrite Hl.
  - right; left. repeat split.
Qed.

Lemma ipv4_bin2addr_in_range (n : Z) :
  0 <= n < 2 ^ 32 ->
  ipv4_bin2addr n = Ok (inet_ntop4 (be_bytes 4 n)).
Proof.
  intros Hn. unfold ipv4_bin2addr, struct_pack_L.
  destruct (Z.leb_spec 0 n); [| lia].
  destruct (Z.leb_spec n 4294967295); [| lia].
  reflexivity.
Qed.

Lemma ipv4_bin2addr_out_of_range (n : Z) :
  n < 0 \/ 2 ^ 32 <= n -> ipv4_bin2addr n = Raise struct_error.
Proof.
  intros Hn. unfold ipv4_bin2addr, struct_pack_L.
  destruct (Z.leb_spec 0 n); [| reflexivity].
  destruct (Z.leb_spec n 4294967295); [lia | reflexivity].
Qed.

Lemma shiftr64_range (n : Z) :
  0 <= Z.shiftr n 64 <= 18446744073709551615 <-> 0 <= n < 2 ^ 128.
Proof.
  rewrite Z.shiftr_div_pow2 by lia.
  change (2 ^ 128) with (2 ^ 64 * 2 ^ 64).
  change 18446744073709551615 with (2 ^ 64 - 1).
  pose proof (Z.div_mod n (2 ^ 64) ltac:(lia)).
  pose proof (Z.mod_pos_bound n (2 ^ 64) ltac:(lia)).
  nia.
Qed.

Lemma land64_range (n : Z) :
  0 <= Z.land n 0xffffffffffffffff <= 18446744073709551615.
Proof.
  assert (E : Z.land n 0xffffffffffffffff = n mod 2 ^ 64)
    by (apply (Z.land_ones n 64); lia).
  rewrite E.
  pose proof (Z.mod_pos_bound n (2 ^ 64) ltac:(lia)) as H.
  change (2 ^ 64) with 18446744073709551616 in *. lia.
Qed.

Lemma ipv6_bin2addr_in_range (n : Z) :
  0 <= n < 2 ^ 128 ->
  ipv6_bin2addr n = Ok (inet_ntop6 (be_bytes 16 n)).
Proof.
  intros Hn. unfold ipv6_bin2addr, struct_pack_QQ.
  apply shiftr64_range in Hn. pose proof (land64_range n) as Hl.
  destruct (Z.leb_spec 0 (Z.shiftr n 64)); [| lia].
  destruct (Z.leb_spec (Z.shiftr n 64) 18446744073709551615); [| lia].
  destruct (Z.leb_spec 0 (Z.land n 0xffffffffffffffff)); [| lia].
  destruct (Z.leb_spec (Z.land n 0xffffffffffffffff) 18446744073709551615);
    [| lia].
  cbn [andb bind]. unfold socket_inet_ntop.
  rewrite length_app, !be_bytes_length. cbn [Nat.add Nat.eqb addr_size negb].
  assert (E : Z.land n 0xffffffffffffffff = n mod 2 ^ 64)
    by (apply (Z.land_ones n 64); lia).
  pose proof (be_bytes_mod 8 n) as M.
  change (8 * Z.of_nat 8) with 64 in M.
  pose proof (be_bytes_app 8 8 n) as A.
  change (8 * Z.of_nat 8) with 64 in A. change (8 + 8)%nat with 16%nat in A.
  rewrite E, M, A. reflexivity.
Qed.

Lemma ipv6_bin2addr_out_of_range (n : Z) :
  n < 0 \/ 2 ^ 128 <= n -> ipv6_bin2addr n = Raise struct_error.
Proof.
  intros Hn. unfold ipv6_bin2addr, struct_pack_QQ.
  pose proof (shiftr64_range n) as Hs.
  destruct (Z.leb_spec 0 (Z.shiftr n 64)); [| reflexivity].
  destruct (Z.leb_spec (Z.shiftr n 64) 18446744073709551615);
    [lia | reflexivity].
Qed.

(** * The scanning loop of inet_pton6 *)

Lemma put16_length (out : list byte) (val : N) :
  List.length (put16 out val) = (List.length out + 2)%nat.
Proof. unfold put16. rewrite length_app. reflexivity. Qed.

(** [tp] never passes [endp]. *)
Lemma pton6_loop_length (src : string) :
  forall st st',
    (List.length (p6_out st) <= 16)%nat ->
    pton6_loop src st = Some st' ->
    (List.length (p6_out st') <= 16)%nat.
Proof.
  induction src as [| c src IH]; intros st st' Hlen H;
    cbn [pton6_loop] in H.
  - now inversion H; subst.
  - destruct (strchr xdigits (tolower c)) as [d |].
    + destruct (p6_xdigits_seen st =? 4)%nat; [discriminate |].
      destruct (0xffff <? _)%N; [discriminate |].
      apply IH in H; [exact H | exact Hlen].
    + destruct (Ascii.eqb (tolower c) ":").
      * destruct (p6_xdigits_seen st =? 0)%nat.
        -- destruct (p6_colonp st); [discriminate |].
           apply IH in H; [exact H | exact Hlen].
        -- destruct src as [| c' src']; [discriminate |].
           unfold NS_IN6ADDRSZ, NS_INT16SZ in H.
           destruct (16 <? List.length (p6_out st) + 2)%nat eqn:Hroom;
             [discriminate |].
           apply Nat.ltb_ge in Hroom.
           apply IH in H; [exact H |]. cbn [p6_out].
           rewrite put16_length. exact Hroom.
      * unfold NS_IN6ADDRSZ, NS_INADDRSZ in H.
        destruct (Ascii.eqb (tolower c) "."
                  && (List.length (p6_out st) + 4 <=? 16)%nat) eqn:Hdot;
          [| discriminate].
        apply andb_true_iff in Hdot as [_ Hroom].
        apply Nat.leb_le in Hroom.
        destruct (inet_pton4 (p6_curtok st)) as [quad |] eqn:Hquad;
          [| discriminate].
        apply inet_pton4_length in Hquad.
        inversion H; subst. cbn [p6_out]. rewrite length_app. lia.
Qed.

Lemma pton6_finish_length (st : pton6_state) (packed : list byte) :
  (List.length (p6_out st) <= 16)%nat ->
  pton6_finish st = Some packed -> List.length packed = 16%nat.
Proof.
  unfold pton6_finish, NS_IN6ADDRSZ, NS_INT16SZ. intros Hlen H.
  assert (Hout : forall out, (List.length out <= 16)%nat ->
            match p6_colonp st with
            | Some colonp =>
                if (List.length out =? 16)%nat then None
                else Some (firstn colonp out
                           ++ repeat x00 (16 - List.length out)
                           ++ skipn colonp out)
            | None => if (List.length out =? 16)%nat then Some out else None
            end = Some packed -> List.length packed = 16%nat).
  { intros out Ho Hp. destruct (p6_colonp st) as [colonp |].
    - destruct (List.length out =? 16)%nat; [discriminate |].
      replace packed
        with (firstn colonp out ++ repeat x00 (16 - List.length out)
              ++ skipn colonp out) by congruence.
      rewrite !length_app, repeat_length.
      pose proof (f_equal (@List.length byte) (firstn_skipn colonp out)) as E.
      rewrite length_app in E. lia.
    - destruct (List.length out =? 16)%nat eqn:E; [| discriminate].
      apply Nat.eqb_eq in E. now inversion Hp; subst. }
  destruct (0 <? p6_xdigits_seen st)%nat.
  - destruct (16 <? List.length (p6_out st) + 2)%nat eqn:Hroom;
      [discriminate |].
    apply Nat.ltb_ge in Hroom.
    apply (Hout (put16 (p6_out st) (p6_val st))); [| exact H].
    rewrite put16_length. exact Hroom.
  - now apply (Hout (p6_out st)).
Qed.

Lemma inet_pton6_length (src : string) (packed : list byte) :
  inet_pton6 src = Some packed -> List.length packed = 16%nat.
Proof.
  unfold inet_pton6. intros H.
  destruct (match src with
            | String ":" rest =>
                match rest with String ":" _ => Some rest | _ => None end
            | _ => Some src
            end) as [src0 |]; [| discriminate].
  destruct (pton6_loop src0 (mk_pton6 [] None src0 0 0)) as [st |] eqn:E;
    [| discriminate].
  apply pton6_loop_length in E; [| cbn; lia].
  now apply pton6_finish_length in H.
Qed.

(** * [struct.unpack] on what [inet_pton] returns *)

Lemma be_value_app (a b : list byte) :
  be_value (a ++ b)
  = be_value a * 2 ^ (8 * Z.of_nat (List.length b)) + be_value b.
Proof.
  induction b as [| x b IH] using rev_ind.
  - rewrite app_nil_r. cbn. lia.
  - rewrite app_assoc, !be_value_snoc, IH, length_app. cbn [List.length].
    replace (8 * Z.of_nat (List.length b + 1))
      with (8 * Z.of_nat (List.length b) + 8) by lia.
    rewrite Z.pow_add_r by lia. change (2 ^ 8) with 256. lia.
Qed.

(** [high << 64 | low] for a [low] of 64 bits. *)
Lemma lor_shiftl_add (high low : Z) :
  0 <= low < 2 ^ 64 ->
  Z.lor (Z.shiftl high 64) low = high * 2 ^ 64 + low.
Proof.
  intros Hlow. rewrite <- Z.shiftl_mul_pow2 by lia.
  assert (Hz : Z.land (Z.shiftl high 64) low = 0).
  { apply Z.bits_inj'. intros i Hi. rewrite Z.land_spec, Z.bits_0.
    destruct (Z.ltb_spec i 64).
    - now rewrite Z.shiftl_spec_low by lia.
    - rewrite (Z.bits_above_log2 low i); [apply andb_false_r | lia |].
      destruct (Z.eq_dec low 0) as [-> | Hnz]; [cbn; lia |].
      assert (Z.log2 low < 64) by (apply Z.log2_lt_pow2; lia). lia. }
  rewrite <- Z.lxor_lor by exact Hz.
  symmetry. now apply Z.add_nocarry_lxor.
Qed.

(** [parse_ipv6] fails exactly as [socket.inet_pton] does. *)
Lemma parse_ipv6_cases (addr : string) :
  (has_nul addr = true /\ parse_ipv6 addr = Raise embedded_null_error)
  \/ (has_nul addr = false /\ inet_pton6 addr = None
      /\ parse_ipv6 addr = Raise socket_error)
  \/ (exists packed,
        has_nul addr = false /\ inet_pton6 addr = Some packed
        /\ List.length packed = 16%nat
        /\ parse_ipv6 addr = Ok (be_value packed)).
Proof.
  unfold parse_ipv6, socket_inet_pton.
  destruct (has_nul addr); [left; split; reflexivity |].
  destruct (inet_pton6 addr) as [packed |] eqn:E.
  - right; right. exists packed.
    pose proof (inet_pton6_length _ _ E) as Hl.
    repeat split; try assumption. cbn [bind]. unfold struct_unpack_QQ.
    rewrite Hl. cbn [Nat.eqb bind]. f_equal.
    pose proof (be_value_bound (skipn 8 packed)) as Hb.
    assert (Hs : List.length (skipn 8 packed) = 8%nat)
      by (rewrite length_skipn; lia).
    rewrite Hs in Hb. change (8 * Z.of_nat 8) with 64 in Hb.
    rewrite lor_shiftl_add by exact Hb.
    rewrite <- (firstn_skipn 8 packed) at 3.
    rewrite be_value_app, Hs. reflexivity.
  - right; left. repeat split.
Qed.

(** * A dotted quad is not an IPv6 address *)

(** The texts of digits and dots: all that [inet_pton4] can accept. *)
Fixpoint digits_and_dots (s : string) : bool :=
  match s with
  | EmptyString => true
  | String c s' => (is_digit c || Ascii.eqb c ".") && digits_and_dots s'
  end.

Lemma pton4_loop_chars (src : string) :
  forall st st', pton4_loop src st = Some st' -> digits_and_dots src = true.
Proof.
  induction src as [| ch src IH]; intros st st' H; [reflexivity |].
  cbn [pton4_loop digits_and_dots] in *.
  destruct (is_digit ch).
  - destruct (p4_saw_digit st && (p4_cur st =? 0)%N); [discriminate |].
    destruct (255 <? _)%N; [discriminate |].
    destruct (p4_saw_digit st).
    + now apply IH in H.
    + destruct (4 <? S (p4_octets st))%nat; [discriminate |].
      now apply IH in H.
  - destruct (Ascii.eqb ch "."); cbn [andb orb] in *; [| discriminate].
    destruct (p4_saw_digit st); [| discriminate].
    destruct (p4_octets st =? 4)%nat; [discriminate |].
    now apply IH in H.
Qed.

(** A decimal digit is a hexadecimal digit, a dot is none. *)
Lemma digit_is_xdigit (c : ascii) :
  is_digit c = true -> exists d, strchr xdigits (tolower c) = Some d.
Proof.
  destruct c as [[] [] [] [] [] [] [] []]; cbn; intros H;
    try discriminate H; eexists; reflexivity.
Qed.

(** Without a colon the scanning loop of [inet_pton6] stores nothing but
    a dotted quad, which ends it. *)
Lemma pton6_loop_digits_and_dots (src : string) :
  forall st,
    digits_and_dots src = true ->
    p6_colonp st = None -> p6_out st = [] ->
    match pton6_loop src st with
    | None => True
    | Some st' =>
        p6_colonp st' = None
        /\ (p6_out st' = []
            \/ (List.length (p6_out st') = 4%nat
                /\ p6_xdigits_seen st' = 0%nat))
    end.
Proof.
  induction src as [| c src IH]; intros st Hs Hc Ho.
  - cbn. split; [exact Hc | left; exact Ho].
  - cbn [digits_and_dots] in Hs. apply andb_true_iff in Hs as [Hch Hs].
    cbn [pton6_loop]. apply orb_true_iff in Hch as [Hd | Hdot].
    + destruct (digit_is_xdigit c Hd) as [d ->].
      destruct (p6_xdigits_seen st =? 4)%nat; [exact I |].
      destruct (0xffff <? _)%N; [exact I |].
      apply IH; assumption.
    + apply Ascii.eqb_eq in Hdot. subst c.
      change (strchr xdigits (tolower ".")) with (@None N). cbv iota.
      change (Ascii.eqb (tolower ".") ":") with false.
      change (Ascii.eqb (tolower ".") ".") with true. cbv iota.
      rewrite Ho. cbn [List.length Nat.add andb].
      change (4 <=? NS_IN6ADDRSZ)%nat with true. cbv iota.
      destruct (inet_pton4 (p6_curtok st)) as [quad |] eqn:Hquad;
        [| exact I].
      apply inet_pton4_length in Hquad. cbn. split; [exact Hc |].
      right. split; [exact Hquad | reflexivity].
Qed.

(** The test for a leading colon lets every other text through. *)
Lemma inet_pton6_no_leading_colon (c : ascii) (rest : string) :
  c <> ":"%char ->
  inet_pton6 (String c rest)
  = match pton6_loop (String c rest)
            (mk_pton6 [] None (String c rest) 0 0) with
    | Some st => pton6_finish st
    | None => None
    end.
Proof.
  intros Hc. unfold inet_pton6.
  destruct c as [[] [] [] [] [] [] [] []];
    solve [reflexivity | now contradiction Hc].
Qed.

Lemma inet_pton4_not_pton6 (src : string) (quad : list byte) :
  inet_pton4 src = Some quad -> inet_pton6 src = None.
Proof.
  intros H. unfold inet_pton4 in H.
  destruct (pton4_loop src (mk_pton4 [] 0 false 0)) as [st4 |] eqn:E;
    [| discriminate].
  apply pton4_loop_chars in E. clear H st4 quad.
  assert (Hloop : match pton6_loop src (mk_pton6 [] None src 0 0) with
                  | Some st => pton6_finish st
                  | None => None
                  end = None).
  { pose proof (pton6_loop_digits_and_dots src
                  (mk_pton6 [] None src 0 0) E eq_refl eq_refl) as H.
    destruct (pton6_loop src (mk_pton6 [] None src 0 0)) as [st |];
      [| reflexivity].
    destruct H as (Hc & [Ho | (Ho & Hseen)]);
      unfold pton6_finish, NS_IN6ADDRSZ, NS_INT16SZ; rewrite Hc.
    - rewrite Ho. now destruct (0 <? p6_xdigits_seen st)%nat.
    - rewrite Hseen. cbn [Nat.ltb Nat.leb]. rewrite Ho. reflexivity. }
  destruct src as [| c rest]; [exact Hloop |].
  rewrite inet_pton6_no_leading_colon; [exact Hloop |].
  intros ->. cbn in E. discriminate.
Qed.

(** * The range computation in arithmetic form *)

Lemma mod_pow2_split (m j k : Z) :
  0 <= j <= k ->
  m mod 2 ^ k = m mod 2 ^ j + 2 ^ j * ((m / 2 ^ j) mod 2 ^ (k - j)).
Proof.
  intros Hjk. pose proof (pow2_pos j). pose proof (pow2_pos (k - j)).
  replace k with (j + (k - j)) at 1 by lia.
  rewrite Z.pow_add_r by lia. apply Z.rem_mul_r; lia.
Qed.

Lemma mod_pow2_le (m j k : Z) :
  0 <= j <= k -> m mod 2 ^ j <= m mod 2 ^ k.
Proof.
  intros Hjk. rewrite (mod_pow2_split m j k) by exact Hjk.
  pose proof (pow2_pos j). pose proof (pow2_pos (k - j)).
  pose proof (Z.mod_pos_bound (m / 2 ^ j) (2 ^ (k - j))). nia.
Qed.

Section RangeArith.
Variable w : Z.
Hypothesis w_pos : 0 < w.
Hypothesis w_max : w <= MAX_LONG_BITS.

(** [numeric_netaddr & mask_bin] keeps the bits [w - p .. w - 1]. *)
Lemma start_arith net p :
  0 <= p <= w ->
  Z.land net (Z.shiftl (Z.shiftr (Z.ones w) (w - p)) (w - p))
  = 2 ^ (w - p) * ((net / 2 ^ (w - p)) mod 2 ^ p).
Proof.
  intros Hp. rewrite Z.mul_comm, <- Z.shiftl_mul_pow2 by lia.
  rewrite <- Z.land_ones, <- Z.shiftr_div_pow2 by lia.
  apply Z.bits_inj'. intros i Hi. rewrite Z.land_spec.
  destruct (Z.ltb_spec i (w - p)) as [Hlt | Hge].
  - rewrite !Z.shiftl_spec_low by lia. apply andb_false_r.
  - rewrite !Z.shiftl_spec by lia.
    rewrite Z.land_spec, !Z.shiftr_spec by lia.
    replace (i - (w - p) + (w - p)) with i by lia.
    f_equal.
    destruct (Z.ltb_spec i w).
    + now rewrite !Z.ones_spec_low by lia.
    + now rewrite !Z.ones_spec_high by lia.
Qed.

Lemma range_at_arith net p :
  0 <= p <= w ->
  range_at w net p =
    Ok (2 ^ (w - p) * ((net / 2 ^ (w - p)) mod 2 ^ p),
        2 ^ (w - p) * ((net / 2 ^ (w - p)) mod 2 ^ p) + 2 ^ (w - p) - 1).
Proof.
  intros Hp. rewrite range_at_shifts by lia.
  pose proof (start_aligned w net p ltac:(lia)) as Ha.
  assert (Hsum : forall s, Z.land s (Z.ones (w - p)) = 0 ->
                           Z.lor s (Z.ones (w - p)) = s + Z.ones (w - p)).
  { intros s Hs. rewrite <- Z.lxor_lor by exact Hs.
    symmetry. now apply Z.add_nocarry_lxor. }
  rewrite (Hsum _ Ha), start_arith, ones_pow2 by exact Hp.
  do 2 f_equal. lia.
Qed.

(** The same start, as the address modulo [2 ^ w] without its host bits. *)
Lemma start_mod net p :
  0 <= p <= w ->
  2 ^ (w - p) * ((net / 2 ^ (w - p)) mod 2 ^ p)
  = net mod 2 ^ w - net mod 2 ^ (w - p).
Proof.
  intros Hp. rewrite (mod_pow2_split net (w - p) w) by lia.
  replace (w - (w - p)) with p by lia. lia.
Qed.

Lemma start_bounds net p :
  0 <= p <= w ->
  0 <= 2 ^ (w - p) * ((net / 2 ^ (w - p)) mod 2 ^ p)
  /\ 2 ^ (w - p) * ((net / 2 ^ (w - p)) mod 2 ^ p) + 2 ^ (w - p) <= 2 ^ w.
Proof.
  intros Hp. pose proof (pow2_pos (w - p)). pose proof (pow2_pos p).
  pose proof (Z.mod_pos_bound (net / 2 ^ (w - p)) (2 ^ p)).
  assert (E : 2 ^ w = 2 ^ (w - p) * 2 ^ p).
  { rewrite <- Z.pow_add_r by lia. f_equal. lia. }
  rewrite E. nia.
Qed.

(** Every address between the start and the end of a range has the same
    bits [w - p .. w - 1] as the start. *)
Lemma member_same_block net p a :
  0 <= p <= w ->
  2 ^ (w - p) * ((net / 2 ^ (w - p)) mod 2 ^ p) <= a
    <= 2 ^ (w - p) * ((net / 2 ^ (w - p)) mod 2 ^ p) + 2 ^ (w - p) - 1 ->
  (a / 2 ^ (w - p)) mod 2 ^ p = (net / 2 ^ (w - p)) mod 2 ^ p.
Proof.
  intros Hp Ha. pose proof (pow2_pos (w - p)). pose proof (pow2_pos p).
  set (q := (net / 2 ^ (w - p)) mod 2 ^ p) in *.
  pose proof (Z.mod_pos_bound (net / 2 ^ (w - p)) (2 ^ p)) as Hq.
  fold q in Hq.
  assert (E : a / 2 ^ (w - p) = q).
  { symmetry. apply (Z.div_unique a (2 ^ (w - p)) q (a - 2 ^ (w - p) * q));
      lia. }
  rewrite E. apply Z.mod_small. lia.
Qed.
End RangeArith.

Lemma range_arith_form_aux (af : address_family) (net p : Z) :
  0 <= p <= width af ->
  get_range af net p =
    Ok (net mod 2 ^ width af - net mod 2 ^ (width af - p),
        net mod 2 ^ width af - net mod 2 ^ (width af - p)
        + 2 ^ (width af - p) - 1).
Proof.
  intros Hp. pose proof (width_pos af) as Hw.
  pose proof (width_max af) as Hmax.
  rewrite get_range_at, range_at_arith by assumption.
  now rewrite start_mod by assumption.
Qed.

(** * inet_pton4 after inet_ntop4 *)

Lemma sprintf_u_no_nul (b : byte) : has_nul (sprintf_u (Byte.to_N b)) = false.
Proof. destruct b; reflexivity. Qed.

(** The loop reads back the octet that [%u] printed. *)
Lemma pton4_loop_octet (b : byte) (done : list byte) (octets : nat)
    (rest : string) :
  (octets < 4)%nat ->
  pton4_loop (sprintf_u (Byte.to_N b) ++ rest) (mk_pton4 done 0 false octets)
  = pton4_loop rest (mk_pton4 done (Byte.to_N b) true (S octets)).
Proof.
  intros Ho.
  destruct octets as [| [| [| [| n]]]]; [| | | | lia];
    destruct b; reflexivity.
Qed.

Lemma pton4_loop_dot (done : list byte) (cur : N) (octets : nat)
    (rest : string) :
  (octets < 4)%nat ->
  pton4_loop ("." ++ rest) (mk_pton4 done cur true octets)
  = pton4_loop rest (mk_pton4 (done ++ [u8 cur]) 0 false octets).
Proof.
  intros Ho. destruct octets as [| [| [| [| n]]]]; [| | | | lia];
    reflexivity.
Qed.

Lemma append_empty_r (s : string) : (s ++ "")%string = s.
Proof. induction s as [| c s IH]; cbn; [reflexivity | now rewrite IH]. Qed.

Lemma inet_pton4_ntop4 (a b c d : byte) :
  inet_pton4 (inet_ntop4 [a; b; c; d]) = Some [a; b; c; d].
Proof.
  unfold inet_pton4, inet_ntop4. cbn [nth].
  rewrite pton4_loop_octet, pton4_loop_dot by lia.
  rewrite pton4_loop_octet, pton4_loop_dot by lia.
  rewrite pton4_loop_octet, pton4_loop_dot by lia.
  rewrite <- (append_empty_r (sprintf_u (Byte.to_N d))).
  rewrite pton4_loop_octet by lia.
  cbn. now rewrite !u8_of_byte.
Qed.

Lemma inet_ntop4_no_nul (a b c d : byte) :
  has_nul (inet_ntop4 [a; b; c; d]) = false.
Proof.
  unfold inet_ntop4. cbn [nth].
  now rewrite !has_nul_app, !sprintf_u_no_nul.
Qed.

Lemma list_length_4 {A : Type} (l : list A) :
  List.length l = 4%nat -> exists a b c d, l = [a; b; c; d].
Proof.
  destruct l as [| a [| b [| c [| d [| e l]]]]]; try discriminate.
  intros _. now exists a, b, c, d.
Qed.

Lemma families_disjoint_aux (addr : string) :
  is_ok (parse_ipv4 addr) && is_ok (parse_ipv6 addr) = false.
Proof.
  destruct (parse_ipv4_cases addr)
    as [(_ & E) | [(_ & _ & E) | (quad & Hn & Hq & _ & E)]];
    rewrite E; try reflexivity.
  apply inet_pton4_not_pton6 in Hq.
  unfold parse_ipv6, socket_inet_pton. now rewrite Hn, Hq.
Qed.

(** * inet_ntop4 after inet_pton4 *)

Lemma append_assoc (s t u : string) :
  ((s ++ t) ++ u)%string = (s ++ (t ++ u))%string.
Proof. induction s as [| c s IH]; cbn; [reflexivity | now rewrite IH]. Qed.

(** The text the loop has read when it is in a given state: the octets
    stored, each followed by its dot, then the digits of the octet under
    construction. *)
Fixpoint octets_text (done : list byte) : string :=
  match done with
  | [] => EmptyString
  | b :: done' =>
      (sprintf_u (Byte.to_N b) ++ "." ++ octets_text done')%string
  end.

Definition pton4_text (st : pton4_state) : string :=
  (octets_text (p4_done st)
   ++ (if p4_saw_digit st then sprintf_u (p4_cur st) else ""))%string.

Definition pton4_canon (st : pton4_state) : Prop :=
  (p4_cur st <= 255)%N /\ (p4_saw_digit st = false -> p4_cur st = 0%N).

Lemma octets_text_snoc (done : list byte) (b : byte) :
  octets_text (done ++ [b])
  = (octets_text done ++ sprintf_u (Byte.to_N b) ++ ".")%string.
Proof.
  induction done as [| a done IH]; cbn [octets_text app].
  - reflexivity.
  - now rewrite IH, !append_assoc.
Qed.

(** [%u] of a single digit is that digit. *)
Lemma sprintf_u_digit (c : ascii) :
  is_digit c = true ->
  sprintf_u (char_code c - char_code "0") = String c EmptyString.
Proof.
  destruct c as [[] [] [] [] [] [] [] []]; intros H;
    solve [discriminate H | reflexivity].
Qed.

(** [%u] of an octet with one more digit appended. *)
Lemma sprintf_u_next_digit (b : byte) (c : ascii) :
  is_digit c = true ->
  Byte.to_N b <> 0%N ->
  (255 <? Byte.to_N b * 10 + (char_code c - char_code "0"))%N = false ->
  sprintf_u (Byte.to_N b * 10 + (char_code c - char_code "0"))
  = (sprintf_u (Byte.to_N b) ++ String c EmptyString)%string.
Proof.
  destruct c as [[] [] [] [] [] [] [] []]; intros Hd;
    try discriminate Hd; clear Hd;
    destruct b; intros Hnz Hle;
    solve [reflexivity | discriminate Hle | now contradiction Hnz].
Qed.

Lemma u8_to_N_small (n : N) : (n <= 255)%N -> Byte.to_N (u8 n) = n.
Proof. intros H. rewrite u8_to_N. apply N.mod_small. lia. Qed.

(** The loop accepts a text only if it is the text of its final state. *)
Lemma pton4_loop_text (src : string) :
  forall st st',
    pton4_canon st ->
    pton4_loop src st = Some st' ->
    pton4_canon st' /\ (pton4_text st ++ src)%string = pton4_text st'.
Proof.
  induction src as [| ch src IH]; intros st st' (Hle & Hz) H;
    cbn [pton4_loop] in H.
  - inversion H; subst. split; [now split |]. apply append_empty_r.
  - destruct (is_digit ch) eqn:Hd.
    + destruct (p4_saw_digit st) eqn:Hsaw; cbn [andb] in H.
      * destruct (p4_cur st =? 0)%N eqn:Hcur; [discriminate |].
        apply N.eqb_neq in Hcur.
        destruct (255 <? _)%N eqn:Hnew; [discriminate |].
        apply IH in H; [| split; [apply N.ltb_ge in Hnew; exact Hnew
                                 | discriminate]].
        destruct H as (Hc & <-). split; [exact Hc |].
        unfold pton4_text. cbn [p4_done p4_saw_digit p4_cur].
        rewrite Hsaw.
        rewrite <- (u8_to_N_small (p4_cur st)) in Hcur, Hnew |- * by exact Hle.
        rewrite sprintf_u_next_digit by assumption.
        now rewrite !append_assoc.
      * rewrite (Hz eq_refl) in H. cbn [N.mul N.add] in H.
        destruct (255 <? _)%N eqn:Hnew; [discriminate |].
        destruct (4 <? S (p4_octets st))%nat; [discriminate |].
        apply IH in H; [| split; [apply N.ltb_ge in Hnew; exact Hnew
                                 | discriminate]].
        destruct H as (Hc & <-). split; [exact Hc |].
        unfold pton4_text. cbn [p4_done p4_saw_digit p4_cur].
        rewrite Hsaw, sprintf_u_digit by exact Hd.
        now rewrite !append_assoc.
    + destruct (Ascii.eqb ch ".") eqn:Hdot; cbn [andb] in H;
        [| discriminate].
      apply Ascii.eqb_eq in Hdot. subst ch.
      destruct (p4_saw_digit st) eqn:Hsaw; [| discriminate].
      destruct (p4_octets st =? 4)%nat; [discriminate |].
      apply IH in H; [| split; [cbn; lia | reflexivity]].
      destruct H as (Hc & <-). split; [exact Hc |].
      unfold pton4_text. cbn [p4_done p4_saw_digit p4_cur].
      rewrite Hsaw, octets_text_snoc, u8_to_N, N.mod_small by lia.
      now rewrite !append_assoc.
Qed.

(** [inet_pton4] accepts the text that [inet_ntop4] prints and no other. *)
Lemma inet_ntop4_pton4 (src : string) (quad : list byte) :
  inet_pton4 src = Some quad -> inet_ntop4 quad = src.
Proof.
  unfold inet_pton4. intros H.
  destruct (pton4_loop src (mk_pton4 [] 0 false 0)) as [st |] eqn:E;
    [| discriminate].
  pose proof E as Hinv.
  apply pton4_loop_inv in Hinv; [| unfold pton4_inv; cbn; lia].
  destruct Hinv as (Hlen & Hfour & Hdot).
  apply pton4_loop_text in E; [| split; [cbn; lia | reflexivity]].
  destruct E as ((Hle & _) & E). cbn in E. subst src.
  destruct (p4_octets st <? 4)%nat eqn:Hlt; [discriminate |].
  apply Nat.ltb_ge in Hlt. injection H as <-.
  destruct (p4_saw_digit st) eqn:Hsaw;
    [| specialize (Hdot eq_refl); lia].
  unfold pton4_text. rewrite Hsaw.
  destruct (p4_done st) as [| a [| b [| c [| d done]]]];
    cbn [List.length] in Hlen; try lia.
  unfold inet_ntop4. cbn [app nth octets_text].
  rewrite u8_to_N_small by exact Hle.
  now rewrite !append_assoc.
Qed.

(** * inet_pton6 after inet_ntop6 *)

(** ** Hexadecimal groups *)

Lemma N_lor_shiftl_add (q r k : N) :
  (r < 2 ^ k)%N -> N.lor (N.shiftl q k) r = (q * 2 ^ k + r)%N.
Proof.
  intros Hr. rewrite <- N.shiftl_mul_pow2.
  assert (Hz : N.land (N.shiftl q k) r = 0%N).
  { apply N.bits_inj. intros m. rewrite N.land_spec, N.bits_0.
    destruct (N.ltb_spec m k).
    - now rewrite N.shiftl_spec_low.
    - rewrite <- (N.mod_small r (2 ^ k)) by exact Hr.
      rewrite N.mod_pow2_bits_high by assumption. apply andb_false_r. }
  rewrite <- N.lxor_lor by exact Hz.
  symmetry. now apply N.add_nocarry_lxor.
Qed.

(** The scanning loop finds a digit that [%x] printed, with its value. *)
Lemma strchr_digit_char (d : N) :
  (d < 16)%N -> strchr xdigits (tolower (digit_char d)) = Some d.
Proof.
  intros Hd.
  assert (H : (d = 0 \/ d = 1 \/ d = 2 \/ d = 3 \/ d = 4 \/ d = 5 \/ d = 6
               \/ d = 7 \/ d = 8 \/ d = 9 \/ d = 10 \/ d = 11 \/ d = 12
               \/ d = 13 \/ d = 14 \/ d = 15)%N) by lia.
  repeat (destruct H as [-> | H]; [reflexivity |]). now subst.
Qed.

Lemma digit_char_not_nul (d : N) :
  (d < 16)%N -> Ascii.eqb (digit_char d) Ascii.zero = false.
Proof.
  intros Hd.
  assert (H : (d = 0 \/ d = 1 \/ d = 2 \/ d = 3 \/ d = 4 \/ d = 5 \/ d = 6
               \/ d = 7 \/ d = 8 \/ d = 9 \/ d = 10 \/ d = 11 \/ d = 12
               \/ d = 13 \/ d = 14 \/ d = 15)%N) by lia.
  repeat (destruct H as [-> | H]; [reflexivity |]). now subst.
Qed.

(** One hexadecimal digit read by the loop. *)
Lemma pton6_loop_xdigit (d : N) (rest : string) (st : pton6_state) :
  (d < 16)%N ->
  (p6_xdigits_seen st < 4)%nat ->
  (p6_val st * 16 + d <= 0xffff)%N ->
  pton6_loop (String (digit_char d) rest) st
  = pton6_loop rest
      (mk_pton6 (p6_out st) (p6_colonp st) (p6_curtok st)
                (S (p6_xdigits_seen st)) (p6_val st * 16 + d)).
Proof.
  intros Hd Hseen Hle. cbn [pton6_loop].
  rewrite strchr_digit_char by exact Hd.
  destruct (Nat.eqb_spec (p6_xdigits_seen st) 4); [lia |].
  rewrite N_lor_shiftl_add by exact Hd. change (2 ^ 4)%N with 16%N.
  destruct (N.ltb_spec 0xffff (p6_val st * 16 + d)); [lia | reflexivity].
Qed.

(** The number of digits that [%x] prints, counted as [utoa] prints them. *)
Fixpoint ndigits (fuel : nat) (n : N) : nat :=
  match fuel with
  | O => O
  | S fuel' => if (n / 16 =? 0)%N then 1%nat else S (ndigits fuel' (n / 16))
  end.

Lemma ndigits_pos (fuel : nat) (n : N) : ndigits (S fuel) n <> 0%nat.
Proof. cbn [ndigits]. destruct (n / 16 =? 0)%N; discriminate. Qed.

Lemma ndigits_le (k : nat) :
  forall fuel n, (n < 16 ^ N.of_nat (S k))%N -> (ndigits fuel n <= S k)%nat.
Proof.
  induction k as [| k IH]; intros fuel n Hn;
    (destruct fuel as [| fuel]; [cbn; lia |]); cbn [ndigits].
  - change (16 ^ N.of_nat 1)%N with 16%N in Hn.
    rewrite (N.div_small n 16) by exact Hn. cbn. lia.
  - destruct (n / 16 =? 0)%N; [lia |].
    apply le_n_S, IH.
    rewrite Nat2N.inj_succ, N.pow_succ_r' in Hn.
    apply N.Div0.div_lt_upper_bound. exact Hn.
Qed.

(** A group of 16 bits has at most four digits. *)
Lemma ndigits_word (w : N) : (w <= 0xffff)%N -> (ndigits 8 w <= 4)%nat.
Proof.
  intros Hw. apply (ndigits_le 3).
  change (16 ^ N.of_nat 4)%N with 65536%N. lia.
Qed.

(** The loop reads back the group that [%x] printed. *)
Lemma pton6_loop_utoa (fuel : nat) :
  forall (n : N) (acc rest : string) out colonp curtok,
    (n < 16 ^ N.of_nat (S fuel))%N ->
    (n <= 0xffff)%N ->
    (ndigits (S fuel) n <= 4)%nat ->
    pton6_loop (utoa 16 (S fuel) n acc ++ rest)
               (mk_pton6 out colonp curtok 0 0)
    = pton6_loop (acc ++ rest)
        (mk_pton6 out colonp curtok (ndigits (S fuel) n) n).
Proof.
  induction fuel as [| fuel IH]; intros n acc rest out colonp curtok Hn Hle Hnd.
  - change (16 ^ N.of_nat 1)%N with 16%N in Hn.
    cbn [utoa ndigits].
    rewrite (N.div_small n 16), (N.mod_small n 16) by exact Hn.
    cbn [N.eqb append].
    rewrite pton6_loop_xdigit;
      cbn [p6_val p6_out p6_colonp p6_curtok p6_xdigits_seen];
      [reflexivity | exact Hn | lia | lia].
  - assert (Hdm : n = (16 * (n / 16) + n mod 16)%N)
      by (apply N.div_mod; lia).
    assert (Hm : (n mod 16 < 16)%N) by (apply N.mod_lt; lia).
    remember (S fuel) as f eqn:Ef.
    cbn [utoa ndigits] in *. destruct (N.eqb_spec (n / 16) 0) as [Hq | Hq].
    + cbn [append].
      rewrite pton6_loop_xdigit;
        cbn [p6_val p6_out p6_colonp p6_curtok p6_xdigits_seen];
        [| exact Hm | lia | lia].
      do 2 f_equal. lia.
    + subst f. rewrite IH; [| | apply N.Div0.div_le_upper_bound; lia | lia].
      * cbn [append].
        rewrite pton6_loop_xdigit;
          cbn [p6_val p6_out p6_colonp p6_curtok p6_xdigits_seen];
          [| exact Hm | lia | lia].
        do 2 f_equal. lia.
      * rewrite Nat2N.inj_succ, N.pow_succ_r' in Hn.
        apply N.Div0.div_lt_upper_bound. exact Hn.
Qed.

(** The number of digits of a group. *)
Definition xdigits_of (w : N) : nat := ndigits 8 w.

Lemma xdigits_of_pos (w : N) : (0 <? xdigits_of w)%nat = true.
Proof.
  apply Nat.ltb_lt. pose proof (ndigits_pos 7 w). unfold xdigits_of. lia.
Qed.

Lemma xdigits_of_not_0 (w : N) : (xdigits_of w =? 0)%nat = false.
Proof. apply Nat.eqb_neq, ndigits_pos. Qed.

Lemma pton6_loop_group (w : N) (rest : string) out colonp curtok :
  (w <= 0xffff)%N ->
  pton6_loop (sprintf_x w ++ rest) (mk_pton6 out colonp curtok 0 0)
  = pton6_loop rest (mk_pton6 out colonp curtok (xdigits_of w) w).
Proof.
  intros Hw. unfold sprintf_x, xdigits_of.
  rewrite pton6_loop_utoa;
    [reflexivity | | exact Hw | now apply ndigits_word].
  change (16 ^ N.of_nat 8)%N with 4294967296%N. lia.
Qed.

(** [%x] prints at least one digit, and no NUL. *)
Lemma utoa_nonempty (b : N) (fuel : nat) (n : N) (acc : string) :
  exists c s, utoa b (S fuel) n acc = String c s.
Proof.
  revert n acc. induction fuel as [| fuel IH]; intros n acc.
  - cbn [utoa]. destruct (n / b =? 0)%N; now eexists; eexists.
  - remember (S fuel) as f. cbn [utoa]. subst f.
    destruct (n / b =? 0)%N; [now eexists; eexists | apply IH].
Qed.

Lemma sprintf_x_nonempty (w : N) : exists c s, sprintf_x w = String c s.
Proof. apply utoa_nonempty. Qed.

Lemma utoa_no_nul (fuel : nat) :
  forall n acc, has_nul (utoa 16 fuel n acc) = has_nul acc.
Proof.
  induction fuel as [| fuel IH]; intros n acc; [reflexivity |].
  cbn [utoa].
  assert (Hd : has_nul (String (digit_char (n mod 16)) acc) = has_nul acc).
  { cbn [has_nul]. rewrite digit_char_not_nul; [reflexivity |].
    apply N.mod_lt. lia. }
  destruct (n / 16 =? 0)%N; [exact Hd | now rewrite IH].
Qed.

Lemma sprintf_x_no_nul (w : N) : has_nul (sprintf_x w) = false.
Proof. apply utoa_no_nul. Qed.

(** ** Words and bytes *)

(** [(src[i] << 8) | src[i + 1]] *)
Definition word (hi lo : byte) : N :=
  N.lor (N.shiftl (Byte.to_N hi) 8) (Byte.to_N lo).

Lemma word_add (hi lo : byte) :
  word hi lo = (Byte.to_N hi * 256 + Byte.to_N lo)%N.
Proof.
  unfold word. rewrite N_lor_shiftl_add; [reflexivity |].
  change (2 ^ 8)%N with 256%N. apply byte_to_N_lt.
Qed.

Lemma word_bound (hi lo : byte) : (word hi lo <= 0xffff)%N.
Proof.
  rewrite word_add.
  pose proof (byte_to_N_lt hi). pose proof (byte_to_N_lt lo). lia.
Qed.

Lemma put16_word (out : list byte) (hi lo : byte) :
  put16 out (word hi lo) = out ++ [hi; lo].
Proof.
  unfold put16. do 2 f_equal.
  - rewrite N.shiftr_div_pow2. change 255%N with (N.ones 8).
    rewrite N.land_ones. change (2 ^ 8)%N with 256%N.
    rewrite word_add, N.div_add_l, (N.div_small (Byte.to_N lo)) by
      (try apply byte_to_N_lt; lia).
    rewrite N.add_0_r, N.mod_small by apply byte_to_N_lt.
    apply u8_of_byte.
  - f_equal. change 255%N with (N.ones 8).
    rewrite N.land_ones. change (2 ^ 8)%N with 256%N.
    rewrite word_add, N.add_comm, N.Div0.mod_add.
    rewrite N.mod_small by apply byte_to_N_lt.
    apply u8_of_byte.
Qed.

Lemma byte_to_N_0 (b : byte) : Byte.to_N b = 0%N -> b = x00.
Proof.
  intros H. pose proof (Byte.of_to_N b) as E. rewrite H in E.
  cbn in E. congruence.
Qed.

Lemma word_zero (hi lo : byte) : word hi lo = 0%N -> hi = x00 /\ lo = x00.
Proof.
  rewrite word_add. intros H. split; apply byte_to_N_0; lia.
Qed.

(** ** The longest run of zero words *)

(** A run of zero words of [ws]. *)
Definition zero_run (ws : list N) (r : run) : Prop :=
  (1 <= len r)%nat
  /\ (base r + len r <= List.length ws)%nat
  /\ forall j, (base r <= j < base r + len r)%nat -> nth j ws 1%N = 0%N.

Lemma zero_run_app (ws ws' : list N) (r : run) :
  zero_run ws r -> zero_run (ws ++ ws') r.
Proof.
  intros (H1 & H2 & H3). repeat split; [exact H1 | rewrite length_app; lia |].
  intros j Hj. rewrite app_nth1 by lia. now apply H3.
Qed.

Lemma better_cases (cur best : option run) (r : run) :
  better cur best = Some r -> cur = Some r \/ best = Some r.
Proof.
  unfold better. destruct cur as [c |]; [| now right].
  destruct best as [b |]; [| now left].
  destruct (len b <? len c)%nat; auto.
Qed.

Lemma scan_runs_zero_run (ws : list N) :
  forall pre cur best r,
    (forall c, cur = Some c ->
               zero_run pre c /\ (base c + len c = List.length pre)%nat) ->
    (forall b, best = Some b -> zero_run pre b) ->
    scan_runs ws (List.length pre) cur best = Some r ->
    zero_run (pre ++ ws) r.
Proof.
  induction ws as [| w ws IH]; intros pre cur best r Hcur Hbest H;
    cbn [scan_runs] in H.
  - rewrite app_nil_r.
    apply better_cases in H as [H | H]; [now apply Hcur | now apply Hbest].
  - replace (pre ++ w :: ws) with ((pre ++ [w]) ++ ws)
      by (now rewrite <- app_assoc).
    assert (Hlen : S (List.length pre) = List.length (pre ++ [w]))
      by (rewrite length_app; cbn; lia).
    rewrite Hlen in H.
    destruct (N.eqb_spec w 0) as [-> | Hw].
    + destruct cur as [c |].
      * apply IH in H; [exact H | | ].
        -- intros c' [= <-]. destruct (Hcur c eq_refl) as ((H1 & H2 & H3) & He).
           cbn [base len]. split; [| rewrite <- Hlen; lia].
           repeat split; cbn [base len]; [lia | rewrite <- Hlen; lia |].
           intros j Hj. destruct (Nat.eq_dec j (List.length pre)) as [-> | Hne].
           ++ now rewrite nth_middle.
           ++ rewrite app_nth1 by lia. apply H3. lia.
        -- intros b Hb. apply zero_run_app. now apply Hbest.
      * apply IH in H; [exact H | | ].
        -- intros c' [= <-]. cbn [base len]. split; [| rewrite <- Hlen; lia].
           repeat split; cbn [base len]; [lia | rewrite <- Hlen; lia |].
           intros j Hj. replace j with (List.length pre) by lia.
           now rewrite nth_middle.
        -- intros b Hb. apply zero_run_app. now apply Hbest.
    + apply IH in H; [exact H | discriminate |].
      intros b Hb. apply zero_run_app.
      apply better_cases in Hb as [Hb | Hb]; [now apply Hcur | now apply Hbest].
Qed.

(** The run that [inet_ntop6] abbreviates: at least two words, all zero. *)
Lemma best_run_zero_run (ws : list N) (r : run) :
  best_run ws = Some r -> zero_run ws r /\ (2 <= len r)%nat.
Proof.
  unfold best_run. intros H.
  destruct (scan_runs ws 0 None None) as [b |] eqn:E; [| discriminate].
  destruct (len b <? 2)%nat eqn:Hl; [discriminate |].
  apply Nat.ltb_ge in Hl. injection H as <-. split; [| exact Hl].
  apply (scan_runs_zero_run ws [] None None b); [discriminate.. | exact E].
Qed.

(** ** The steps of the scanning loop on a printed address *)

Lemma digit_char_not_colon (d : N) :
  (d < 16)%N -> digit_char d <> ":"%char.
Proof.
  intros Hd.
  assert (H : (d = 0 \/ d = 1 \/ d = 2 \/ d = 3 \/ d = 4 \/ d = 5 \/ d = 6
               \/ d = 7 \/ d = 8 \/ d = 9 \/ d = 10 \/ d = 11 \/ d = 12
               \/ d = 13 \/ d = 14 \/ d = 15)%N) by lia.
  repeat (destruct H as [-> | H]; [discriminate |]). now subst.
Qed.

(** [%x] starts with a hexadecimal digit. *)
Lemma utoa_head (fuel : nat) :
  forall n d s,
    (d < 16)%N ->
    exists d' s', (d' < 16)%N
                  /\ utoa 16 fuel n (String (digit_char d) s)
                     = String (digit_char d') s'.
Proof.
  induction fuel as [| fuel IH]; intros n d s Hd.
  - now exists d, s.
  - cbn [utoa]. assert (Hm : (n mod 16 < 16)%N) by (apply N.mod_lt; lia).
    destruct (n / 16 =? 0)%N; [| now apply IH].
    exists (n mod 16)%N. eexists. split; [exact Hm | reflexivity].
Qed.

Lemma sprintf_x_head (w : N) :
  exists d s, (d < 16)%N /\ sprintf_x w = String (digit_char d) s.
Proof.
  unfold sprintf_x. remember 7%nat as f. cbn [utoa].
  assert (Hm : (w mod 16 < 16)%N) by (apply N.mod_lt; lia).
  destruct (w / 16 =? 0)%N; [| now apply utoa_head].
  exists (w mod 16)%N. eexists. split; [exact Hm | reflexivity].
Qed.

Lemma sprintf_x_app_nonempty (w : N) (rest : string) :
  (sprintf_x w ++ rest)%string <> EmptyString.
Proof.
  destruct (sprintf_x_head w) as (d & s & _ & ->). discriminate.
Qed.

(** A colon after a group stores the group. *)
Lemma pton6_loop_colon_store (rest : string) out colonp curtok seen v :
  (seen =? 0)%nat = false ->
  rest <> EmptyString ->
  (List.length out + 2 <= 16)%nat ->
  pton6_loop (String ":" rest) (mk_pton6 out colonp curtok seen v)
  = pton6_loop rest (mk_pton6 (put16 out v) colonp rest 0 0).
Proof.
  intros Hseen Hr Hlen. cbn [pton6_loop].
  change (strchr xdigits (tolower ":")) with (@None N). cbv iota.
  change (Ascii.eqb (tolower ":") ":") with true. cbv iota.
  cbn [p6_xdigits_seen p6_out p6_colonp p6_val]. rewrite Hseen.
  destruct rest as [| c s]; [now contradiction Hr |].
  unfold NS_IN6ADDRSZ, NS_INT16SZ.
  destruct (Nat.ltb_spec 16 (List.length out + 2)); [lia | reflexivity].
Qed.

(** A colon after a colon marks the place of the zero words. *)
Lemma pton6_loop_colon_mark (rest : string) out curtok v :
  pton6_loop (String ":" rest) (mk_pton6 out None curtok 0 v)
  = pton6_loop rest (mk_pton6 out (Some (List.length out)) rest 0 v).
Proof. reflexivity. Qed.

(** The decimal digits of an octet are hexadecimal digits too, and at
    most three. *)
Lemma pton6_loop_decimal_octet (a : byte) (rest : string)
    out colonp curtok :
  exists seen v,
    pton6_loop (sprintf_u (Byte.to_N a) ++ rest)
               (mk_pton6 out colonp curtok 0 0)
    = pton6_loop rest (mk_pton6 out colonp curtok seen v).
Proof. destruct a; eexists; eexists; reflexivity. Qed.

Lemma sprintf_u_app_nonempty (a : byte) (rest : string) :
  (sprintf_u (Byte.to_N a) ++ rest)%string <> EmptyString.
Proof. destruct a; discriminate. Qed.

(** A dotted quad ends the loop. *)
Lemma pton6_loop_quad (a b c d : byte) out colonp :
  (List.length out + 4 <= 16)%nat ->
  exists v,
    pton6_loop (inet_ntop4 [a; b; c; d])
               (mk_pton6 out colonp (inet_ntop4 [a; b; c; d]) 0 0)
    = Some (mk_pton6 (out ++ [a; b; c; d]) colonp
                     (inet_ntop4 [a; b; c; d]) 0 v).
Proof.
  intros Hlen. pose proof (inet_pton4_ntop4 a b c d) as Hq.
  set (tok := inet_ntop4 [a; b; c; d]) in *.
  unfold inet_ntop4 in tok. cbn [nth] in tok.
  destruct (pton6_loop_decimal_octet a
              ("." ++ sprintf_u (Byte.to_N b) ++ "."
               ++ sprintf_u (Byte.to_N c) ++ "." ++ sprintf_u (Byte.to_N d))
              out colonp tok) as (seen & v & E).
  exists v. unfold tok at 1. rewrite E. cbn [append pton6_loop].
  change (strchr xdigits (tolower ".")) with (@None N). cbv iota.
  change (Ascii.eqb (tolower ".") ":") with false.
  change (Ascii.eqb (tolower ".") ".") with true. cbv iota.
  cbn [p6_out p6_curtok p6_colonp p6_val andb].
  unfold NS_IN6ADDRSZ, NS_INADDRSZ.
  destruct (Nat.leb_spec (List.length out + 4) 16); [| lia].
  now rewrite Hq.
Qed.

(** The two ways into the loop. *)
Lemma inet_pton6_group_first (w : N) (rest : string) :
  inet_pton6 (sprintf_x w ++ rest)
  = match pton6_loop (sprintf_x w ++ rest)
            (mk_pton6 [] None (sprintf_x w ++ rest) 0 0) with
    | Some st => pton6_finish st
    | None => None
    end.
Proof.
  destruct (sprintf_x_head w) as (d & s & Hd & ->). cbn [append].
  apply inet_pton6_no_leading_colon. now apply digit_char_not_colon.
Qed.

Lemma inet_pton6_colons_first (rest : string) :
  inet_pton6 (String ":" (String ":" rest))
  = match pton6_loop (String ":" rest)
            (mk_pton6 [] None (String ":" rest) 0 0) with
    | Some st => pton6_finish st
    | None => None
    end.
Proof. reflexivity. Qed.

(** ** The whole address *)

Lemma words_of_16
    (b0 b1 b2 b3 b4 b5 b6 b7 b8 b9 b10 b11 b12 b13 b14 b15 : byte) :
  words_of [b0; b1; b2; b3; b4; b5; b6; b7;
            b8; b9; b10; b11; b12; b13; b14; b15]
  = [word b0 b1; word b2 b3; word b4 b5; word b6 b7;
     word b8 b9; word b10 b11; word b12 b13; word b14 b15].
Proof. reflexivity. Qed.

Lemma inet_ntop4_nonempty (a b c d : byte) :
  inet_ntop4 [a; b; c; d] <> EmptyString.
Proof. unfold inet_ntop4. cbn [nth]. apply sprintf_u_app_nonempty. Qed.

(** The bytes of a zero word of the run are zero. *)
Ltac zero_word H j :=
  try (let Hz := fresh "Hz" in
       assert (Hz := H j ltac:(cbn [base len Nat.add]; lia));
       cbn [nth] in Hz; apply word_zero in Hz; destruct Hz; subst).

(** One colon or one group of the text. *)
Ltac pton6_step :=
  first
    [ rewrite pton6_loop_group by apply word_bound
    | rewrite pton6_loop_colon_store
        by (first [ apply xdigits_of_not_0
                  | discriminate
                  | apply sprintf_x_app_nonempty
                  | apply inet_ntop4_nonempty
                  | rewrite ?put16_length; cbn [List.length]; lia ])
    | rewrite pton6_loop_colon_mark ].

(** The end of the text: [pton6_finish] on the bytes stored. *)
Ltac pton6_done :=
  cbn [pton6_loop]; cbv iota;
  unfold pton6_finish, NS_IN6ADDRSZ, NS_INT16SZ;
  cbn [p6_out p6_colonp p6_xdigits_seen p6_val];
  rewrite ?xdigits_of_pos;
  rewrite ?put16_word; cbn [app];
  rewrite ?put16_word; cbn [app List.length Nat.add Nat.ltb Nat.leb
                            Nat.eqb Nat.sub firstn skipn repeat];
  reflexivity.

Lemma inet_pton6_ntop6_16
    (b0 b1 b2 b3 b4 b5 b6 b7 b8 b9 b10 b11 b12 b13 b14 b15 : byte) :
  inet_pton6 (inet_ntop6 [b0; b1; b2; b3; b4; b5; b6; b7;
                          b8; b9; b10; b11; b12; b13; b14; b15])
  = Some [b0; b1; b2; b3; b4; b5; b6; b7;
          b8; b9; b10; b11; b12; b13; b14; b15].
Proof.
  unfold inet_ntop6. rewrite words_of_16.
  destruct (best_run _) as [[b l] |] eqn:E.
  - (* a run of [l] zero words from word [b] on *)
    apply best_run_zero_run in E. destruct E as ((_ & H2 & H3) & Hl).
    cbn [base len List.length] in H2, H3, Hl.
    destruct b as [| [| [| [| [| [| [| b]]]]]]]; [| | | | | | | exfalso; lia];
      destruct l as [| [| [| [| [| [| [| [| [| l]]]]]]]]];
      try (exfalso; lia);
      zero_word H3 0%nat; zero_word H3 1%nat; zero_word H3 2%nat;
      zero_word H3 3%nat; zero_word H3 4%nat; zero_word H3 5%nat;
      zero_word H3 6%nat; zero_word H3 7%nat; clear H2 H3 Hl;
      cbn [ntop6_loop in_run encapsulated_v4 trailing_colon base len
           Nat.eqb Nat.leb Nat.ltb Nat.add andb orb append nth skipn].
    all: try (rewrite inet_pton6_group_first; repeat pton6_step; pton6_done).
    all: try (rewrite inet_pton6_colons_first; repeat pton6_step; pton6_done).
    + (* ::ffff:a.b.c.d, or five zero words and three groups *)
      destruct (word b10 b11 =? 65535)%N.
      * rewrite append_empty_r, inet_pton6_colons_first.
        repeat pton6_step. cbn [List.length].
        destruct (pton6_loop_quad b12 b13 b14 b15
                    (put16 [] (word b10 b11)) (Some 0%nat)) as [v ->];
          [rewrite put16_length; cbn [List.length]; lia |].
        pton6_done.
      * rewrite inet_pton6_colons_first. repeat pton6_step. pton6_done.
    + (* ::a.b.c.d *)
      rewrite append_empty_r, inet_pton6_colons_first.
      repeat pton6_step. cbn [List.length].
      destruct (pton6_loop_quad b12 b13 b14 b15 [] (Some 0%nat))
        as [v ->]; [cbn [List.length]; lia |].
      pton6_done.
  - (* no run of two zero words: eight groups *)
    cbn [ntop6_loop in_run encapsulated_v4 trailing_colon Nat.eqb append].
    rewrite inet_pton6_group_first.
    repeat pton6_step. pton6_done.
Qed.

Lemma inet_ntop4_any_no_nul (src : list byte) : has_nul (inet_ntop4 src) = false.
Proof.
  unfold inet_ntop4. now rewrite !has_nul_app, !sprintf_u_no_nul.
Qed.

Lemma trailing_colon_no_nul (best : option run) :
  has_nul (trailing_colon best) = false.
Proof.
  unfold trailing_colon. destruct best as [b |]; [| reflexivity].
  now destruct (base b + len b =? 8)%nat.
Qed.

Lemma ntop6_loop_no_nul (src : list byte) (words : list N)
    (best : option run) (ws : list N) :
  forall i, has_nul (ntop6_loop src words best i ws) = false.
Proof.
  induction ws as [| w ws IH]; intros i; cbn [ntop6_loop].
  - apply trailing_colon_no_nul.
  - destruct (in_run best i).
    + rewrite has_nul_app, IH, orb_false_r.
      destruct best as [b |]; [| reflexivity].
      now destruct (i =? base b)%nat.
    + rewrite has_nul_app.
      assert (Hsep : has_nul (if (i =? 0)%nat then "" else ":") = false)
        by now destruct (i =? 0)%nat.
      rewrite Hsep. cbn [orb].
      destruct (encapsulated_v4 best words i).
      * now rewrite has_nul_app, inet_ntop4_any_no_nul, trailing_colon_no_nul.
      * now rewrite has_nul_app, sprintf_x_no_nul, IH.
Qed.

Lemma inet_ntop6_no_nul (src : list byte) : has_nul (inet_ntop6 src) = false.
Proof. apply ntop6_loop_no_nul. Qed.

Lemma inet_pton6_ntop6 (src : list byte) :
  List.length src = 16%nat -> inet_pton6 (inet_ntop6 src) = Some src.
Proof.
  intros H.
  do 16 (destruct src as [| ? src]; [discriminate H |]).
  destruct src; [| discriminate H].
  apply inet_pton6_ntop6_16.
Qed.

Lemma Some_inj {A : Type} (a b : A) : Some a = Some b -> a = b.
Proof. intros H. now injection H. Qed.

(** * Formatting then parsing, for both families *)

Lemma Ok_inj {A : Type} (a b : A) : Ok a = Ok b -> a = b.
Proof. intros H. now injection H. Qed.

Lemma parse_ipv4_ntop4 (v : Z) :
  0 <= v < 2 ^ 32 -> parse_ipv4 (inet_ntop4 (be_bytes 4 v)) = Ok v.
Proof.
  intros Hv.
  destruct (list_length_4 (be_bytes 4 v) (be_bytes_length 4 v))
    as (a & b & c & d & E).
  unfold parse_ipv4, socket_inet_pton. rewrite E.
  rewrite inet_ntop4_no_nul, inet_pton4_ntop4. cbn [bind].
  unfold struct_unpack_L. cbn [List.length Nat.eqb].
  rewrite <- E, be_value_be_bytes, Z.mod_small by exact Hv. reflexivity.
Qed.

Lemma parse_ipv6_ntop6 (v : Z) :
  0 <= v < 2 ^ 128 -> parse_ipv6 (inet_ntop6 (be_bytes 16 v)) = Ok v.
Proof.
  intros Hv.
  destruct (parse_ipv6_cases (inet_ntop6 (be_bytes 16 v)))
    as [(Hn & _) | [(_ & Hq & _) | (packed & _ & Hq & _ & E)]].
  - now rewrite inet_ntop6_no_nul in Hn.
  - now rewrite inet_pton6_ntop6 in Hq by apply be_bytes_length.
  - rewrite inet_pton6_ntop6 in Hq by apply be_bytes_length.
    apply Some_inj in Hq. subst packed.
    rewrite E, be_value_be_bytes, Z.mod_small by exact Hv. reflexivity.
Qed.

(** A formatter returns only for a number of the family's address space. *)
Lemma bin2addr_ok_range (af : address_family) (v : Z) (text : string) :
  bin2addr af v = Ok text -> 0 <= v < 2 ^ width af.
Proof.
  intros H.
  destruct (Z.lt_ge_cases v 0) as [Hneg | Hpos];
    [| destruct (Z.lt_ge_cases v (2 ^ width af)) as [Hlt | Hge];
       [split; assumption |]];
    exfalso; destruct af; cbn [bin2addr width] in *.
  - rewrite ipv4_bin2addr_out_of_range in H by (left; exact Hneg).
    discriminate H.
  - rewrite ipv6_bin2addr_out_of_range in H by (left; exact Hneg).
    discriminate H.
  - rewrite ipv4_bin2addr_out_of_range in H by (right; exact Hge).
    discriminate H.
  - rewrite ipv6_bin2addr_out_of_range in H by (right; exact Hge).
    discriminate H.
Qed.

Lemma bin2addr_parse (af : address_family) (v : Z) (text : string) :
  bin2addr af v = Ok text -> parse_family af text = Ok v.
Proof.
  intros H. pose proof (bin2addr_ok_range af v text H) as Hv.
  destruct af; cbn [bin2addr parse_family width] in *.
  - rewrite ipv4_bin2addr_in_range in H by exact Hv.
    apply Ok_inj in H. subst text. now apply parse_ipv4_ntop4.
  - rewrite ipv6_bin2addr_in_range in H by exact Hv.
    apply Ok_inj in H. subst text. now apply parse_ipv6_ntop6.
Qed.

Lemma bin2addr_in_range (af : address_family) (v : Z) :
  0 <= v < 2 ^ width af -> exists text, bin2addr af v = Ok text.
Proof.
  intros Hv. destruct af; cbn [bin2addr width] in *; eexists.
  - now apply ipv4_bin2addr_in_range.
  - now apply ipv6_bin2addr_in_range.
Qed.

(** * An address without two adjacent zero words *)

(** The word of two bytes of a packed number. *)
Lemma word_of_packed (x : Z) :
  word (u8 (Z.to_N (Z.land (Z.shiftr x 8) 255))) (u8 (Z.to_N (Z.land x 255)))
  = Z.to_N (Z.land x 0xffff).
Proof.
  change 255 with (Z.ones 8). change 0xffff with (Z.ones 16).
  rewrite !Z.land_ones, Z.shiftr_div_pow2 by lia.
  pose proof (Z.mod_pos_bound (x / 2 ^ 8) (2 ^ 8) ltac:(lia)) as Hhi.
  pose proof (Z.mod_pos_bound x (2 ^ 8) ltac:(lia)) as Hlo.
  rewrite word_add, !u8_to_N.
  rewrite !N.mod_small by (change 256%N with (Z.to_N 256); lia).
  rewrite (mod_pow2_split x 8 16) by lia. change (16 - 8) with 8.
  lia.
Qed.

Lemma best_run_none_8 (w0 w1 w2 w3 w4 w5 w6 w7 : N) :
  (w0 <> 0 \/ w1 <> 0)%N -> (w1 <> 0 \/ w2 <> 0)%N ->
  (w2 <> 0 \/ w3 <> 0)%N -> (w3 <> 0 \/ w4 <> 0)%N ->
  (w4 <> 0 \/ w5 <> 0)%N -> (w5 <> 0 \/ w6 <> 0)%N ->
  (w6 <> 0 \/ w7 <> 0)%N ->
  best_run [w0; w1; w2; w3; w4; w5; w6; w7] = None.
Proof.
  intros H0 H1 H2 H3 H4 H5 H6. unfold best_run. cbn [scan_runs].
  destruct (N.eqb_spec w0 0) as [E0 | E0];
    destruct (N.eqb_spec w1 0) as [E1 | E1];
    try (exfalso; destruct H0; contradiction);
    destruct (N.eqb_spec w2 0) as [E2 | E2];
    try (exfalso; destruct H1; contradiction);
    destruct (N.eqb_spec w3 0) as [E3 | E3];
    try (exfalso; destruct H2; contradiction);
    destruct (N.eqb_spec w4 0) as [E4 | E4];
    try (exfalso; destruct H3; contradiction);
    destruct (N.eqb_spec w5 0) as [E5 | E5];
    try (exfalso; destruct H4; contradiction);
    destruct (N.eqb_spec w6 0) as [E6 | E6];
    try (exfalso; destruct H5; contradiction);
    destruct (N.eqb_spec w7 0) as [E7 | E7];
    try (exfalso; destruct H6; contradiction);
    reflexivity.
Qed.

Lemma words_of_be_bytes_16 (v : Z) :
  words_of (be_bytes 16 v)
  = [Z.to_N (group v 0); Z.to_N (group v 1); Z.to_N (group v 2);
     Z.to_N (group v 3); Z.to_N (group v 4); Z.to_N (group v 5);
     Z.to_N (group v 6); Z.to_N (group v 7)].
Proof.
  cbn [be_bytes app]. rewrite words_of_16, !word_of_packed.
  unfold group. rewrite !Z.shiftr_shiftr by lia. reflexivity.
Qed.

Lemma group_bound (v i : Z) : 0 <= group v i < 2 ^ 16.
Proof.
  unfold group. change 0xffff with (Z.ones 16).
  rewrite Z.land_ones by lia. apply Z.mod_pos_bound. lia.
Qed.

Lemma group_to_N_zero (v i : Z) : Z.to_N (group v i) = 0%N -> group v i = 0.
Proof. pose proof (group_bound v i). lia. Qed.

Lemma inet_ntop6_no_adjacent_zeros (v : Z) :
  (forall i, 0 <= i < 7 -> group v i <> 0 \/ group v (i + 1) <> 0) ->
  inet_ntop6 (be_bytes 16 v)
  = (sprintf_x (Z.to_N (group v 0)) ++ ":"
     ++ sprintf_x (Z.to_N (group v 1)) ++ ":"
     ++ sprintf_x (Z.to_N (group v 2)) ++ ":"
     ++ sprintf_x (Z.to_N (group v 3)) ++ ":"
     ++ sprintf_x (Z.to_N (group v 4)) ++ ":"
     ++ sprintf_x (Z.to_N (group v 5)) ++ ":"
     ++ sprintf_x (Z.to_N (group v 6)) ++ ":"
     ++ sprintf_x (Z.to_N (group v 7)))%string.
Proof.
  intros H. unfold inet_ntop6. rewrite words_of_be_bytes_16.
  assert (Hn : forall i, 0 <= i < 7 ->
             Z.to_N (group v i) <> 0%N \/ Z.to_N (group v (i + 1)) <> 0%N).
  { intros i Hi. destruct (H i Hi) as [Hg | Hg]; [left | right];
      intros E; apply Hg; now apply group_to_N_zero. }
  rewrite best_run_none_8;
    [| apply (Hn 0) | apply (Hn 1) | apply (Hn 2) | apply (Hn 3)
     | apply (Hn 4) | apply (Hn 5) | apply (Hn 6)]; try lia.
  cbn [ntop6_loop in_run encapsulated_v4 trailing_colon Nat.eqb append].
  now rewrite append_empty_r.
Qed.

(** * No [::] in an address printed group by group *)








(** * Upper-case hexadecimal digits *)

Lemma tolower_idem (c : ascii) : tolower (tolower c) = tolower c.
Proof. destruct c as [[] [] [] [] [] [] [] []]; reflexivity. Qed.

Lemma tolower_digit (c : ascii) : is_digit c = true -> tolower c = c.
Proof.
  destruct c as [[] [] [] [] [] [] [] []]; intros H;
    solve [reflexivity | discriminate H].
Qed.

Lemma is_digit_tolower (c : ascii) : is_digit (tolower c) = is_digit c.
Proof. destruct c as [[] [] [] [] [] [] [] []]; reflexivity. Qed.

Lemma eqb_dot_tolower (c : ascii) :
  Ascii.eqb (tolower c) "." = Ascii.eqb c ".".
Proof. destruct c as [[] [] [] [] [] [] [] []]; reflexivity. Qed.

Lemma eqb_zero_tolower (c : ascii) :
  Ascii.eqb (tolower c) Ascii.zero = Ascii.eqb c Ascii.zero.
Proof. destruct c as [[] [] [] [] [] [] [] []]; reflexivity. Qed.

Lemma tolower_colon (c : ascii) : tolower c = ":"%char -> c = ":"%char.
Proof.
  destruct c as [[] [] [] [] [] [] [] []]; intros H;
    solve [reflexivity | discriminate H].
Qed.

Lemma has_nul_lowercase (s : string) : has_nul (lowercase s) = has_nul s.
Proof.
  induction s as [| c s IH]; [reflexivity |].
  cbn [lowercase has_nul]. now rewrite eqb_zero_tolower, IH.
Qed.

Lemma pton4_loop_lowercase (src : string) :
  forall st, pton4_loop (lowercase src) st = pton4_loop src st.
Proof.
  induction src as [| ch src IH]; intros st; [reflexivity |].
  cbn [lowercase pton4_loop].
  rewrite is_digit_tolower, eqb_dot_tolower.
  destruct (is_digit ch) eqn:Hd.
  - rewrite (tolower_digit ch Hd), !IH. reflexivity.
  - now rewrite IH.
Qed.

Lemma inet_pton4_lowercase (src : string) :
  inet_pton4 (lowercase src) = inet_pton4 src.
Proof. unfold inet_pton4. now rewrite pton4_loop_lowercase. Qed.

(** The state of the loop on the lower-case text. *)
Definition lowercase_tok (st : pton6_state) : pton6_state :=
  mk_pton6 (p6_out st) (p6_colonp st) (lowercase (p6_curtok st))
           (p6_xdigits_seen st) (p6_val st).

Lemma pton6_loop_lowercase (src : string) :
  forall st,
    pton6_loop (lowercase src) (lowercase_tok st)
    = option_map lowercase_tok (pton6_loop src st).
Proof.
  induction src as [| c src IH]; intros st; [reflexivity |].
  cbn [lowercase pton6_loop]. rewrite tolower_idem.
  cbn [lowercase_tok p6_out p6_colonp p6_curtok p6_xdigits_seen p6_val].
  destruct (strchr xdigits (tolower c)) as [d |].
  - destruct (p6_xdigits_seen st =? 4)%nat; [reflexivity |].
    destruct (0xffff <? _)%N; [reflexivity |]. apply (IH (mk_pton6 _ _ _ _ _)).
  - destruct (Ascii.eqb (tolower c) ":").
    + destruct (p6_xdigits_seen st =? 0)%nat.
      * destruct (p6_colonp st); [reflexivity |].
        apply (IH (mk_pton6 _ _ _ _ _)).
      * destruct src as [| c' src']; [reflexivity |].
        destruct (NS_IN6ADDRSZ <? _)%nat; [reflexivity |].
        exact (IH (mk_pton6 (put16 (p6_out st) (p6_val st)) (p6_colonp st)
                            (String c' src') 0%nat 0)).
    + destruct (Ascii.eqb (tolower c) "." && _); [| reflexivity].
      rewrite inet_pton4_lowercase.
      now destruct (inet_pton4 (p6_curtok st)).
Qed.

Lemma pton6_finish_lowercase (st : pton6_state) :
  pton6_finish (lowercase_tok st) = pton6_finish st.
Proof. reflexivity. Qed.

Lemma inet_pton6_single_colon (c : ascii) (rest : string) :
  c <> ":"%char -> inet_pton6 (String ":" (String c rest)) = None.
Proof.
  intros Hc. unfold inet_pton6.
  destruct c as [[] [] [] [] [] [] [] []];
    solve [reflexivity | now contradiction Hc].
Qed.

Lemma pton6_run_lowercase (src : string) :
  match pton6_loop (lowercase src)
          (mk_pton6 [] None (lowercase src) 0 0) with
  | Some st => pton6_finish st
  | None => None
  end
  = match pton6_loop src (mk_pton6 [] None src 0 0) with
    | Some st => pton6_finish st
    | None => None
    end.
Proof.
  pose proof (pton6_loop_lowercase src (mk_pton6 [] None src 0 0)) as H.
  unfold lowercase_tok at 1 in H.
  cbn [p6_out p6_colonp p6_curtok p6_xdigits_seen p6_val] in H.
  rewrite H.
  destruct (pton6_loop src (mk_pton6 [] None src 0 0)) as [st |];
    [apply pton6_finish_lowercase | reflexivity].
Qed.

(** [inet_pton6] reads upper-case hexadecimal digits as lower-case ones. *)
Lemma inet_pton6_lowercase (src : string) :
  inet_pton6 (lowercase src) = inet_pton6 src.
Proof.
  destruct src as [| c rest]; [reflexivity |].
  destruct (Ascii.eqb_spec c ":") as [-> | Hc].
  - destruct rest as [| c' rest]; [reflexivity |].
    destruct (Ascii.eqb_spec c' ":") as [-> | Hc'].
    + change (lowercase (String ":" (String ":" rest)))
        with (String ":" (String ":" (lowercase rest))).
      rewrite !inet_pton6_colons_first.
      apply (pton6_run_lowercase (String ":" rest)).
    + change (lowercase (String ":" (String c' rest)))
        with (String ":" (String (tolower c') (lowercase rest))).
      rewrite !inet_pton6_single_colon; [reflexivity | exact Hc' |].
      intros E. apply Hc'. now apply tolower_colon.
  - cbn [lowercase].
    rewrite !inet_pton6_no_leading_colon;
      [| exact Hc | intros E; apply Hc; now apply tolower_colon].
    apply (pton6_run_lowercase (String c rest)).
Qed.

(** * The claims on parsing, formatting and family detection *)

Local Open Scope string_scope.

(** C10: the formatters are partial: for every number outside
    [0, 2 ^ 32 - 1] [ipv4_bin2addr] raises ([struct.error]) instead of
    truncating or wrapping, for every number outside [0, 2 ^ 128 - 1]
    [ipv6_bin2addr] raises; within these ranges both return a text. *)
Theorem bin2addr_domain (af : address_family) (numeric_addr : Z) :
  (numeric_addr < 0 \/ 2 ^ width af <= numeric_addr ->
   bin2addr af numeric_addr = Raise struct_error) /\
  (0 <= numeric_addr < 2 ^ width af ->
   exists text, bin2addr af numeric_addr = Ok text).
Proof.
  destruct af; cbn [bin2addr width]; split; intros Hn.
  - now apply ipv4_bin2addr_out_of_range.
  - eexists. now apply ipv4_bin2addr_in_range.
  - now apply ipv6_bin2addr_out_of_range.
  - eexists. now apply ipv6_bin2addr_in_range.
Qed.

Lemma bin2addr_domain_witness :
  ipv4_bin2addr 0xa1ffff0000 = Raise struct_error /\
  (exists text, ipv6_bin2addr 0x123400000000000000000000000000ff = Ok text).
Proof.
  split.
  - apply (proj1 (bin2addr_domain AF_INET 0xa1ffff0000)). right. cbn. lia.
  - apply (proj2 (bin2addr_domain AF_INET6
                    0x123400000000000000000000000000ff)).
    cbn. lia.
Defined.




(** C6: formatting then parsing gives the number back: for every [v] of
    [0 .. 2 ^ 32 - 1], [parse_ipv4] of the text that [ipv4_bin2addr v]
    returns is [v]; for every [v] of [0 .. 2 ^ 128 - 1], [parse_ipv6] of
    the text that [ipv6_bin2addr v] returns is [v]. *)
Theorem format_parse_roundtrip (af : address_family) (v : Z) :
  0 <= v < 2 ^ width af ->
  exists text, bin2addr af v = Ok text /\ parse_family af text = Ok v.
Proof.
  intros Hv. destruct (bin2addr_in_range af v Hv) as [text Htext].
  exists text. split; [exact Htext |]. now apply bin2addr_parse.
Qed.

Lemma format_parse_roundtrip_witness :
  (exists text, ipv4_bin2addr 0xc0a80001 = Ok text
                /\ parse_ipv4 text = Ok 0xc0a80001) /\
  (exists text, ipv6_bin2addr 0xfe8000000000000000000000fbd67860 = Ok text
                /\ parse_ipv6 text = Ok 0xfe8000000000000000000000fbd67860).
Proof.
  split.
  - apply (format_parse_roundtrip AF_INET 0xc0a80001). cbn. lia.
  - apply (format_parse_roundtrip AF_INET6
             0xfe8000000000000000000000fbd67860).
    cbn. lia.
Defined.

(** C7: [parse_ipv4] rejects an octet out of 0..255 and an IPv6 form, even
    one that embeds a dotted quad; [parse_ipv6] rejects every IPv4-only
    string, that is every text that [parse_ipv4] accepts, such as
    ["174.26.72.88"]; and [parse_ipv4] rejects every text that [parse_ipv6]
    accepts.  The failure is [socket.error] ("illegal IP address string
    passed to inet_pton"). *)
Theorem cross_family_rejection (addr : string) (v : Z) :
  parse_ipv4 "999.999.999.999" = Raise socket_error /\
  parse_ipv4 "::ffff:192.168.0.1" = Raise socket_error /\
  parse_ipv6 "174.26.72.88" = Raise socket_error /\
  (parse_ipv4 addr = Ok v -> parse_ipv6 addr = Raise socket_error) /\
  (parse_ipv6 addr = Ok v -> parse_ipv4 addr = Raise socket_error).
Proof.
  split; [vm_compute; reflexivity |].
  split; [vm_compute; reflexivity |].
  split; [vm_compute; reflexivity |].
  destruct (parse_ipv4_cases addr)
    as [(Hn & E) | [(Hn & _ & E) | (quad & Hn & Hq & _ & E)]].
  - (* a NUL byte: neither parser accepts the text *)
    split; intros H; [rewrite E in H; discriminate H |].
    unfold parse_ipv6, socket_inet_pton in H. rewrite Hn in H.
    discriminate H.
  - (* not an IPv4 address *)
    split; intros H; [rewrite E in H; discriminate H | exact E].
  - (* an IPv4 address, which [inet_pton] does not take for an IPv6 one *)
    apply inet_pton4_not_pton6 in Hq.
    assert (E6 : parse_ipv6 addr = Raise socket_error)
      by (unfold parse_ipv6, socket_inet_pton; now rewrite Hn, Hq).
    split; intros H; [exact E6 | rewrite E6 in H; discriminate H].
Qed.

Lemma cross_family_rejection_witness :
  parse_ipv6 "255.255.0.0" = Raise socket_error /\
  parse_ipv4 "dead::beef" = Raise socket_error.
Proof.
  split.
  - apply (proj1 (proj2 (proj2 (proj2
             (cross_family_rejection "255.255.0.0" 4294901760))))).
    reflexivity.
  - apply (proj2 (proj2 (proj2 (proj2
             (cross_family_rejection "dead::beef"
                295986882420777848964380943247191621359))))).
    vm_compute. reflexivity.
Defined.

(** C8: the literal scenarios. *)
Theorem literal_scenarios :
  parse_ipv4 "174.26.72.88" = Ok 2920958040 /\
  parse_ipv6 "::" = Ok 0 /\
  get_ipv4_range 0xac100000 12 = Ok (2886729728, 2887778303) /\
  ipv6_bin2addr 0x01020304050607080910111213141516
  = Ok "102:304:506:708:910:1112:1314:1516" /\
  ipv6_bin2addr 0xffff000000000dead00000beef000000
  = Ok "ffff::dea:d000:be:ef00:0".
Proof. repeat split; vm_compute; reflexivity. Qed.

(** C5: without a family, [parse_ipaddr] tries [parse_ipv4] first: a text
    that parses as IPv4 is reported as IPv4 ([(False, value)]); only when
    [parse_ipv4] fails is [parse_ipv6] tried, and its outcome, failure
    included, is the outcome of [parse_ipaddr].  In particular
    [parse_ipaddr('1.2.3.4')] is [(False, 16909060)]. *)
Theorem detect_ipv4_first (addr : string) :
  (forall v, parse_ipv4 addr = Ok v ->
             parse_ipaddr addr None = Ok (Tagged false v)) /\
  (forall e, parse_ipv4 addr = Raise e ->
             parse_ipaddr addr None = fmap (Tagged true) (parse_ipv6 addr)) /\
  (forall e e', parse_ipv4 addr = Raise e -> parse_ipv6 addr = Raise e' ->
                parse_ipaddr addr None = Raise e') /\
  parse_ipaddr "1.2.3.4" None = Ok (Tagged false 16909060).
Proof.
  assert (Hfail : forall e, parse_ipv4 addr = Raise e ->
            parse_ipaddr addr None = fmap (Tagged true) (parse_ipv6 addr)).
  { intros e He. unfold parse_ipaddr.
    destruct (parse_ipv4_cases addr)
      as [(Hnul & H4) | [(Hnul & Hnone & H4) | (quad & _ & _ & _ & H4)]].
    - rewrite H4. unfold parse_ipv6, socket_inet_pton. now rewrite Hnul.
    - now rewrite H4.
    - rewrite H4 in He. discriminate. }
  repeat split.
  - intros v Hv. unfold parse_ipaddr. now rewrite Hv.
  - exact Hfail.
  - intros e e' He He'. rewrite (Hfail e He), He'. reflexivity.
Qed.

Lemma detect_ipv4_first_witness :
  parse_ipaddr "255.255.0.0" None = Ok (Tagged false 4294901760) /\
  parse_ipaddr "dead::beef" None
  = fmap (Tagged true) (parse_ipv6 "dead::beef") /\
  parse_ipaddr "invalid" None = Raise socket_error.
Proof.
  split; [| split].
  - apply (proj1 (detect_ipv4_first "255.255.0.0")). reflexivity.
  - apply (proj1 (proj2 (detect_ipv4_first "dead::beef")) socket_error).
    reflexivity.
  - apply (proj1 (proj2 (proj2 (detect_ipv4_first "invalid")))
             socket_error socket_error); reflexivity.
Defined.

(** * The claims on the range computation *)




(** C3: for a network address within the width of the family and a prefix
    length in the valid range, the range computation returns a pair
    [(start, end)] with [start & ((1 << (width - prefix_len)) - 1) == 0],
    [start <= end] and [end - start == 2 ^ (width - prefix_len) - 1]. *)
Theorem range_correct (af : address_family) (net p : Z) :
  0 <= net < 2 ^ width af ->
  0 <= p <= width af ->
  exists range_start range_end,
    get_range af net p = Ok (range_start, range_end) /\
    Z.land range_start (Z.shiftl 1 (width af - p) - 1) = 0 /\
    range_start <= range_end /\
    range_end - range_start = 2 ^ (width af - p) - 1.
Proof.
  intros _ Hp. pose proof (width_pos af) as Hw.
  pose proof (width_max af) as Hmax.
  rewrite get_range_at, range_at_shifts by lia.
  set (start := Z.land net _).
  assert (Ha : Z.land start (Z.ones (width af - p)) = 0)
    by (apply start_aligned; lia).
  exists start, (Z.lor start (Z.ones (width af - p))).
  assert (Hones : 0 <= Z.ones (width af - p)).
  { rewrite ones_pow2. pose proof (pow2_pos (width af - p)). lia. }
  assert (Hsum : Z.lor start (Z.ones (width af - p))
                 = start + Z.ones (width af - p)).
  { rewrite <- Z.lxor_lor by exact Ha.
    symmetry. apply Z.add_nocarry_lxor. exact Ha. }
  split; [reflexivity |]. split.
  - rewrite Z.shiftl_1_l, <- ones_pow2. exact Ha.
  - rewrite Hsum, <- ones_pow2. lia.
Qed.

Lemma range_correct_witness :
  exists range_start range_end,
    get_ipv4_range 0xac100000 12 = Ok (range_start, range_end) /\
    Z.land range_start (Z.shiftl 1 (32 - 12) - 1) = 0 /\
    range_start <= range_end /\
    range_end - range_start = 2 ^ (32 - 12) - 1.
Proof.
  apply (range_correct AF_INET 0xac100000 12); cbn; lia.
Defined.

(** C4: for every address [x] within the width of the family, prefix
    length 0 yields the full address space [(0, 2 ^ width - 1)] (which is
    [(0, 0xFFFFFFFF)] for IPv4) and prefix length [width] yields the single
    address [(x, x)]. *)
Theorem range_boundary (af : address_family) (x : Z) :
  0 <= x < 2 ^ width af ->
  get_range af x 0 = Ok (0, 2 ^ width af - 1) /\
  get_range af x (width af) = Ok (x, x).
Proof.
  intros Hx. pose proof (width_pos af) as Hw.
  pose proof (width_max af) as Hmax. rewrite get_range_at. split.
  - apply range_at_zero; assumption.
  - apply range_at_full; assumption.
Qed.

Lemma range_boundary_witness :
  get_ipv4_range 0xa1b2c3d4 0 = Ok (0, 0xFFFFFFFF) /\
  get_ipv4_range 0xa1b2c3d4 32 = Ok (0xa1b2c3d4, 0xa1b2c3d4).
Proof.
  apply (range_boundary AF_INET 0xa1b2c3d4). cbn. lia.
Defined.

(** C9 (amended): for a negative prefix length down to -65536 and every
    network address the range computation returns normally, with the pair
    [(0, 2 ^ (width - prefix_len) - 1)], whose end lies beyond the last
    address [2 ^ width - 1] of the family. *)
Theorem range_negative_prefix (af : address_family) (net p : Z) :
  -65536 <= p < 0 ->
  get_range af net p = Ok (0, 2 ^ (width af - p) - 1) /\
  2 ^ width af - 1 < 2 ^ (width af - p) - 1.
Proof.
  intros Hp. pose proof (width_pos af) as Hw.
  pose proof (width_max af) as Hmax. split.
  - rewrite get_range_at. apply range_at_negative; try assumption; try lia.
    assert (width af <= 128) by (destruct af; discriminate).
    unfold MAX_LONG_BITS, PY_SSIZE_T_MAX. lia.
  - assert (2 ^ width af < 2 ^ (width af - p))
      by (apply Z.pow_lt_mono_r; lia).
    lia.
Qed.

Lemma range_negative_prefix_witness :
  get_ipv4_range 0xac100000 (-1) = Ok (0, 2 ^ (32 - -1) - 1) /\
  2 ^ 32 - 1 < 2 ^ (32 - -1) - 1.
Proof.
  apply (range_negative_prefix AF_INET 0xac100000 (-1)). lia.
Defined.

(** C9 as stated fails: not every negative prefix length is served.  At
    [prefix_len = -(10 ** 30)] the count of [1 << mask_inverted] is more
    than an integer can hold, and both range functions raise
    [OverflowError] instead of returning a pair. *)
Lemma range_huge_negative_prefix_raises :
  -1000000000000000000000000000000 < 0 /\
  get_ipv4_range 0 (-1000000000000000000000000000000)
  = Raise OverflowError_shift_count /\
  get_ipv6_range 0 (-1000000000000000000000000000000)
  = Raise OverflowError_shift_count /\
  (forall r, get_ipv4_range 0 (-1000000000000000000000000000000) <> Ok r) /\
  (forall r, get_ipv6_range 0 (-1000000000000000000000000000000) <> Ok r).
Proof.
  assert (H4 : get_ipv4_range 0 (-1000000000000000000000000000000)
               = Raise OverflowError_shift_count).
  { rewrite get_ipv4_range_at.
    apply range_at_overflow; unfold MAX_LONG_BITS, PY_SSIZE_T_MAX; lia. }
  assert (H6 : get_ipv6_range 0 (-1000000000000000000000000000000)
               = Raise OverflowError_shift_count).
  { rewrite get_ipv6_range_at.
    apply range_at_overflow; unfold MAX_LONG_BITS, PY_SSIZE_T_MAX; lia. }
  split; [lia |]. split; [exact H4 |]. split; [exact H6 |].
  split; intros r Hr; [rewrite H4 in Hr | rewrite H6 in Hr];
    discriminate Hr.
Qed.

(** * Further properties of the range computation *)

Local Open Scope Z_scope.

(** X1: for a prefix length in the valid range and every integer network
    address, also a negative one or one beyond the width of the family, the
    range computation returns the block of the address taken modulo
    [2 ^ width]: the start is that address without its [width - prefix_len]
    host bits, the end is the start with all host bits set. *)
Theorem range_arith_form (af : address_family) (net p : Z) :
  0 <= p <= width af ->
  get_range af net p =
    Ok (net mod 2 ^ width af - net mod 2 ^ (width af - p),
        net mod 2 ^ width af - net mod 2 ^ (width af - p)
        + 2 ^ (width af - p) - 1).
Proof.
  intros Hp. pose proof (width_pos af) as Hw.
  pose proof (width_max af) as Hmax.
  rewrite get_range_at, range_at_arith by assumption.
  now rewrite start_mod by assumption.
Qed.

Lemma range_arith_form_witness :
  get_ipv4_range (-1) 24 =
    Ok (-1 mod 2 ^ 32 - -1 mod 2 ^ (32 - 24),
        -1 mod 2 ^ 32 - -1 mod 2 ^ (32 - 24) + 2 ^ (32 - 24) - 1).
Proof.
  apply (range_arith_form AF_INET (-1) 24). cbn. lia.
Defined.

(** X2: the range of a network address within the width of the family
    contains that address. *)
Theorem range_contains_net (af : address_family)
    (net p range_start range_end : Z) :
  0 <= net < 2 ^ width af ->
  0 <= p <= width af ->
  get_range af net p = Ok (range_start, range_end) ->
  range_start <= net <= range_end.
Proof.
  intros Hnet Hp H. pose proof (width_pos af) as Hw.
  pose proof (width_max af) as Hmax.
  rewrite get_range_at, range_at_arith in H by assumption.
  rewrite start_mod in H by assumption.
  inversion H; subst; clear H.
  rewrite (Z.mod_small net (2 ^ width af)) by exact Hnet.
  pose proof (pow2_pos (width af - p)).
  pose proof (Z.mod_pos_bound net (2 ^ (width af - p))). lia.
Qed.

Lemma range_contains_net_witness :
  2886729728 <= 0xac1f0001 <= 2887778303.
Proof.
  apply (range_contains_net AF_INET 0xac1f0001 12);
    [cbn; lia | cbn; lia | reflexivity].
Defined.

(** X3: for a prefix length in the valid range the returned range lies
    within the address space of the family, whatever integer is passed as
    the network address. *)
Theorem range_within_address_space (af : address_family)
    (net p range_start range_end : Z) :
  0 <= p <= width af ->
  get_range af net p = Ok (range_start, range_end) ->
  0 <= range_start /\ range_start <= range_end /\ range_end < 2 ^ width af.
Proof.
  intros Hp H. pose proof (width_pos af) as Hw.
  pose proof (width_max af) as Hmax.
  rewrite get_range_at, range_at_arith in H by assumption.
  inversion H; subst; clear H.
  pose proof (start_bounds (width af) Hw net p Hp).
  pose proof (pow2_pos (width af - p)). lia.
Qed.

Lemma range_within_address_space_witness :
  0 <= 4294967040 /\ 4294967040 <= 4294967295 /\ 4294967295 < 2 ^ 32.
Proof.
  apply (range_within_address_space AF_INET (-1) 24);
    [cbn; lia | reflexivity].
Defined.

(** X4: every address of a range is a network address of that range: the
    host bits of [numeric_netaddr] do not matter. *)
Theorem range_same_for_members (af : address_family)
    (net p range_start range_end a : Z) :
  0 <= p <= width af ->
  get_range af net p = Ok (range_start, range_end) ->
  range_start <= a <= range_end ->
  get_range af a p = Ok (range_start, range_end).
Proof.
  intros Hp H Ha. pose proof (width_pos af) as Hw.
  pose proof (width_max af) as Hmax.
  rewrite get_range_at, range_at_arith in * by assumption.
  inversion H; subst; clear H.
  now rewrite (member_same_block (width af) net p a Hp Ha).
Qed.

Lemma range_same_for_members_witness :
  get_ipv4_range 0xac1f0001 12 = Ok (2886729728, 2887778303).
Proof.
  apply (range_same_for_members AF_INET 0xac100000 12);
    [cbn; lia | reflexivity | lia].
Defined.

(** X5: a longer prefix gives a range inside the range of a shorter one. *)
Theorem range_nested (af : address_family)
    (net p q start_p end_p start_q end_q : Z) :
  0 <= p <= q -> q <= width af ->
  get_range af net p = Ok (start_p, end_p) ->
  get_range af net q = Ok (start_q, end_q) ->
  start_p <= start_q /\ end_q <= end_p.
Proof.
  intros Hp Hq H1 H2. pose proof (width_pos af) as Hw.
  pose proof (width_max af) as Hmax.
  rewrite range_arith_form_aux in H1 by lia.
  rewrite range_arith_form_aux in H2 by lia.
  inversion H1; subst; clear H1. inversion H2; subst; clear H2.
  set (m := net mod 2 ^ width af).
  set (k := width af - p). set (j := width af - q).
  assert (Hjk : 0 <= j <= k) by (unfold j, k; lia).
  pose proof (mod_pow2_split net j k Hjk) as E.
  pose proof (pow2_pos j). pose proof (pow2_pos (k - j)).
  pose proof (Z.mod_pos_bound (net / 2 ^ j) (2 ^ (k - j))).
  assert (Ek : 2 ^ k = 2 ^ j * 2 ^ (k - j)).
  { rewrite <- Z.pow_add_r by lia. f_equal. lia. }
  split; nia.
Qed.

Lemma range_nested_witness :
  2886729728 <= 2887712768 /\ 2887713023 <= 2887778303.
Proof.
  apply (range_nested AF_INET 0xac1f0001 12 24);
    [lia | cbn; lia | reflexivity | reflexivity].
Defined.

(** X6: for a prefix length from -65536 up, the range computation fails
    exactly when the prefix length is greater than the width of the family,
    whatever the network address. *)
Theorem range_ok_iff (af : address_family) (net p : Z) :
  -65536 <= p ->
  is_ok (get_range af net p) = (p <=? width af).
Proof.
  intros Hlow. pose proof (width_pos af) as Hw.
  pose proof (width_max af) as Hmax. rewrite get_range_at.
  assert (H128 : width af <= 128) by (destruct af; discriminate).
  destruct (Z.leb_spec p (width af)).
  - rewrite range_at_shifts; try assumption; [reflexivity |].
    unfold MAX_LONG_BITS, PY_SSIZE_T_MAX. lia.
  - now rewrite range_at_too_long.
Qed.

Lemma range_ok_iff_witness :
  is_ok (get_ipv6_range 5 (-1)) = (-1 <=? 128).
Proof.
  apply (range_ok_iff AF_INET6 5 (-1)). lia.
Defined.

(** X7: the IPv4 addresses are the last [2 ^ 32] of the IPv6 address
    space with a prefix longer by 96 bits: [get_ipv6_range] with
    [prefix_len + 96] returns what [get_ipv4_range] returns with
    [prefix_len]. *)
Theorem range_ipv4_in_ipv6 (net p : Z) :
  0 <= net < 2 ^ 32 ->
  0 <= p <= 32 ->
  get_ipv6_range net (p + 96) = get_ipv4_range net p.
Proof.
  intros Hnet Hp.
  change (get_range AF_INET6 net (p + 96) = get_range AF_INET net p).
  rewrite !range_arith_form_aux by (cbn [width]; lia).
  cbn [width]. replace (128 - (p + 96)) with (32 - p) by lia.
  rewrite (Z.mod_small net (2 ^ 128)), (Z.mod_small net (2 ^ 32)); try lia.
  reflexivity.
Qed.

Lemma range_ipv4_in_ipv6_witness :
  get_ipv6_range 0xac1f0001 (12 + 96) = get_ipv4_range 0xac1f0001 12.
Proof.
  apply (range_ipv4_in_ipv6 0xac1f0001 12); lia.
Defined.

(** * Further properties of parsing, formatting and family detection *)

Local Open Scope string_scope.

(** X8: a parsed address lies in the address space of its family:
    [parse_ipv4] returns a number of [0 .. 2 ^ 32 - 1], [parse_ipv6] one of
    [0 .. 2 ^ 128 - 1]. *)
Theorem parse_result_bound (af : address_family) (addr : string) (v : Z) :
  parse_family af addr = Ok v -> 0 <= v < 2 ^ width af.
Proof.
  destruct af; cbn [parse_family width]; intros H.
  - destruct (parse_ipv4_cases addr)
      as [(_ & E) | [(_ & _ & E) | (quad & _ & _ & Hl & E)]];
      rewrite E in H; try discriminate.
    injection H as <-. pose proof (be_value_bound quad) as Hb.
    now rewrite Hl in Hb.
  - destruct (parse_ipv6_cases addr)
      as [(_ & E) | [(_ & _ & E) | (packed & _ & _ & Hl & E)]];
      rewrite E in H; try discriminate.
    injection H as <-. pose proof (be_value_bound packed) as Hb.
    now rewrite Hl in Hb.
Qed.

Lemma parse_result_bound_witness : 0 <= 2920958040 < 2 ^ 32.
Proof.
  apply (parse_result_bound AF_INET "174.26.72.88"). reflexivity.
Defined.

(** X9: the parsers never fail with [struct.error]: what
    [socket.inet_pton] returns has the 4 bytes that [struct.unpack('!L')]
    expects for an IPv4 address and the 16 bytes that
    [struct.unpack('!QQ')] expects for an IPv6 one. *)
Theorem parse_never_struct_error (af : address_family) (addr : string) :
  parse_family af addr <> Raise struct_error.
Proof.
  destruct af; cbn [parse_family].
  - destruct (parse_ipv4_cases addr)
      as [(_ & E) | [(_ & _ & E) | (quad & _ & _ & _ & E)]];
      rewrite E; discriminate.
  - destruct (parse_ipv6_cases addr)
      as [(_ & E) | [(_ & _ & E) | (packed & _ & _ & _ & E)]];
      rewrite E; discriminate.
Qed.

(** X10: no text is both an IPv4 and an IPv6 address: whatever
    [parse_ipv4] accepts [parse_ipv6] rejects, and conversely. *)
Theorem families_disjoint (addr : string) :
  is_ok (parse_ipv4 addr) && is_ok (parse_ipv6 addr) = false.
Proof.
  destruct (parse_ipv4_cases addr)
    as [(_ & E) | [(_ & _ & E) | (quad & Hn & Hq & _ & E)]];
    rewrite E; try reflexivity.
  apply inet_pton4_not_pton6 in Hq.
  unfold parse_ipv6, socket_inet_pton. now rewrite Hn, Hq.
Qed.

(** X11: detection and enforcement agree: without a family
    [parse_ipaddr] returns [(is_ipv6, value)] exactly when with that
    family enforced it returns [value]. *)
Theorem detect_agrees_with_hint (addr : string) (is_ipv6 : bool) (v : Z) :
  parse_ipaddr addr None = Ok (Tagged is_ipv6 v)
  <-> parse_ipaddr addr (Some is_ipv6) = Ok (Bare v).
Proof.
  unfold parse_ipaddr, try_except_socket_error, fmap.
  destruct (parse_ipv4_cases addr)
    as [(Hn & E) | [(Hn & _ & E) | (quad & Hn & Hq & _ & E)]];
    rewrite E; cbn [bind].
  - (* a NUL byte: both parsers raise the same error *)
    unfold parse_ipv6, socket_inet_pton. rewrite Hn.
    destruct is_ipv6; cbn [bind]; split; intros H; discriminate H.
  - (* not IPv4: the outcome is that of parse_ipv6 *)
    destruct is_ipv6; cbn [bind].
    + destruct (parse_ipv6 addr) as [v6 | e6]; cbn [bind];
        split; intros H; try discriminate H; congruence.
    + destruct (parse_ipv6 addr) as [v6 | e6]; cbn [bind];
        split; intros H; discriminate H.
  - (* IPv4, hence not IPv6 *)
    apply inet_pton4_not_pton6 in Hq.
    unfold parse_ipv6, socket_inet_pton. rewrite Hn, Hq.
    destruct is_ipv6; cbn [bind]; split; intros H;
      try discriminate H; congruence.
Qed.

(** X12: enforcing the other family than the detected one fails with
    [socket.error], as the doctests [parse_ipaddr('1.2.3.4', True)] and
    [parse_ipaddr('dead::beef', False)] show of two texts. *)
Theorem wrong_family_rejected (addr : string) (is_ipv6 : bool) (v : Z) :
  parse_ipaddr addr None = Ok (Tagged is_ipv6 v) ->
  parse_ipaddr addr (Some (negb is_ipv6)) = Raise socket_error.
Proof.
  intros H. pose proof (families_disjoint_aux addr) as Hd.
  unfold parse_ipaddr, try_except_socket_error, fmap in *.
  destruct (parse_ipv4_cases addr)
    as [(_ & E) | [(_ & _ & E) | (quad & Hn & Hq & _ & E)]];
    rewrite E in *; cbn [bind] in H; try discriminate H.
  - destruct (parse_ipv6 addr) as [v6 | e6]; cbn [bind] in H;
      [| discriminate H].
    injection H as <- _. reflexivity.
  - injection H as <- _. cbn [negb].
    apply inet_pton4_not_pton6 in Hq.
    unfold parse_ipv6, socket_inet_pton. now rewrite Hn, Hq.
Qed.

Lemma wrong_family_rejected_witness :
  parse_ipaddr "dead::beef" (Some (negb true)) = Raise socket_error.
Proof.
  apply (wrong_family_rejected "dead::beef" true
           295986882420777848964380943247191621359).
  vm_compute. reflexivity.
Defined.

(** X13: formatting then parsing an IPv4 address gives the address back:
    for every [v] of [0 .. 2 ^ 32 - 1], [ipv4_bin2addr v] returns a text
    and [parse_ipv4] of that text returns [v]. *)
Theorem ipv4_format_then_parse (v : Z) :
  0 <= v < 2 ^ 32 ->
  exists text, ipv4_bin2addr v = Ok text /\ parse_ipv4 text = Ok v.
Proof.
  intros Hv. exists (inet_ntop4 (be_bytes 4 v)).
  split; [now apply ipv4_bin2addr_in_range |].
  destruct (list_length_4 (be_bytes 4 v) (be_bytes_length 4 v))
    as (a & b & c & d & E).
  unfold parse_ipv4, socket_inet_pton. rewrite E.
  rewrite inet_ntop4_no_nul, inet_pton4_ntop4. cbn [bind].
  unfold struct_unpack_L. cbn [List.length Nat.eqb]. f_equal.
  rewrite <- E, be_value_be_bytes.
  apply Z.mod_small. exact Hv.
Qed.

Lemma ipv4_format_then_parse_witness :
  exists text, ipv4_bin2addr 2920958040 = Ok text
               /\ parse_ipv4 text = Ok 2920958040.
Proof.
  apply (ipv4_format_then_parse 2920958040). lia.
Defined.

(** X14: [parse_ipv4] accepts the canonical text only: when it returns
    [v] for a text, [ipv4_bin2addr v] returns that very text (no leading
    zeros, no other radix, no surrounding blanks are accepted). *)
Theorem ipv4_parse_then_format (addr : string) (v : Z) :
  parse_ipv4 addr = Ok v -> ipv4_bin2addr v = Ok addr.
Proof.
  intros H.
  destruct (parse_ipv4_cases addr)
    as [(_ & E) | [(_ & _ & E) | (quad & _ & Hq & Hl & E)]];
    rewrite E in H; try discriminate H.
  injection H as <-.
  pose proof (be_value_bound quad) as Hb. rewrite Hl in Hb.
  rewrite ipv4_bin2addr_in_range by exact Hb.
  pose proof (be_bytes_be_value quad) as Hbytes. rewrite Hl in Hbytes.
  rewrite Hbytes. f_equal. now apply inet_ntop4_pton4.
Qed.

Lemma ipv4_parse_then_format_witness :
  ipv4_bin2addr 2920958040 = Ok "174.26.72.88".
Proof.
  apply (ipv4_parse_then_format "174.26.72.88" 2920958040). reflexivity.
Defined.

(** X15: formatting then parsing an IPv6 address gives the address back:
    for every [v] of [0 .. 2 ^ 128 - 1], [ipv6_bin2addr v] returns a text
    and [parse_ipv6] of that text returns [v], whether the text is
    abbreviated with [::], ends in a dotted quad, or neither. *)
Theorem ipv6_format_then_parse (v : Z) :
  0 <= v < 2 ^ 128 ->
  exists text, ipv6_bin2addr v = Ok text /\ parse_ipv6 text = Ok v.
Proof.
  intros Hv. exists (inet_ntop6 (be_bytes 16 v)).
  split; [now apply ipv6_bin2addr_in_range |].
  destruct (parse_ipv6_cases (inet_ntop6 (be_bytes 16 v)))
    as [(Hn & _) | [(_ & Hq & _) | (packed & _ & Hq & _ & E)]].
  - now rewrite inet_ntop6_no_nul in Hn.
  - now rewrite inet_pton6_ntop6 in Hq by apply be_bytes_length.
  - rewrite inet_pton6_ntop6 in Hq by apply be_bytes_length.
    apply Some_inj in Hq. subst packed.
    rewrite E, be_value_be_bytes, Z.mod_small by exact Hv. reflexivity.
Qed.

Lemma ipv6_format_then_parse_witness :
  exists text, ipv6_bin2addr 0xffff000000000dead00000beef000000 = Ok text
               /\ parse_ipv6 text = Ok 0xffff000000000dead00000beef000000.
Proof.
  apply (ipv6_format_then_parse 0xffff000000000dead00000beef000000). lia.
Defined.

(** X16: detection recognises what the formatters print: for the text
    that [ipv4_bin2addr v] returns [parse_ipaddr] returns [(False, v)], for
    the text that [ipv6_bin2addr v] returns it returns [(True, v)], also
    when that text ends in a dotted quad. *)
Theorem detect_formatted (af : address_family) (v : Z) (text : string) :
  bin2addr af v = Ok text ->
  parse_ipaddr text None = Ok (Tagged (is_ipv6_of af) v).
Proof.
  intros H. apply bin2addr_parse in H.
  unfold parse_ipaddr, try_except_socket_error, fmap.
  destruct af; cbn [parse_family is_ipv6_of] in *.
  - now rewrite H.
  - destruct (parse_ipv4_cases text)
      as [(Hn & _) | [(_ & _ & E) | (quad & Hn & Hq & _ & _)]].
    + unfold parse_ipv6, socket_inet_pton in H. rewrite Hn in H.
      discriminate H.
    + now rewrite E, H.
    + apply inet_pton4_not_pton6 in Hq.
      unfold parse_ipv6, socket_inet_pton in H. rewrite Hn, Hq in H.
      discriminate H.
Qed.

Lemma detect_formatted_witness :
  parse_ipaddr "::ffff:192.168.0.1" None
  = Ok (Tagged (is_ipv6_of AF_INET6) 281473913978881).
Proof.
  apply (detect_formatted AF_INET6 281473913978881 "::ffff:192.168.0.1").
  vm_compute. reflexivity.
Defined.

(** X17: the formatters are injective: two numbers with the same text are
    the same number. *)
Theorem bin2addr_injective (af : address_family) (a b : Z) (text : string) :
  bin2addr af a = Ok text -> bin2addr af b = Ok text -> a = b.
Proof.
  intros Ha Hb. apply bin2addr_parse in Ha, Hb.
  rewrite Ha in Hb. now apply Ok_inj in Hb.
Qed.

Lemma bin2addr_injective_witness : 2920958040 = 0xae1a4858.
Proof.
  apply (bin2addr_injective AF_INET 2920958040 0xae1a4858 "174.26.72.88");
    reflexivity.
Defined.

(** X18: parsing, range computation and formatting compose: for a parsed
    address and a prefix length in the valid range, the range is returned,
    it contains the address, and both its ends are formatted into texts
    that parse back to them. *)
Theorem parsed_range_formats (af : address_family) (addr : string)
    (net p : Z) :
  parse_family af addr = Ok net ->
  0 <= p <= width af ->
  exists range_start range_end text_start text_end,
    get_range af net p = Ok (range_start, range_end)
    /\ range_start <= net <= range_end
    /\ bin2addr af range_start = Ok text_start
    /\ bin2addr af range_end = Ok text_end
    /\ parse_family af text_start = Ok range_start
    /\ parse_family af text_end = Ok range_end.
Proof.
  intros Hparse Hp. pose proof (width_pos af) as Hw.
  pose proof (width_max af) as Hmax.
  assert (Hnet : 0 <= net < 2 ^ width af).
  { destruct af; cbn [parse_family width] in *.
    - destruct (parse_ipv4_cases addr)
        as [(_ & E) | [(_ & _ & E) | (quad & _ & _ & Hl & E)]];
        rewrite E in Hparse; try discriminate Hparse.
      apply Ok_inj in Hparse. subst net.
      pose proof (be_value_bound quad) as Hb. now rewrite Hl in Hb.
    - destruct (parse_ipv6_cases addr)
        as [(_ & E) | [(_ & _ & E) | (packed & _ & _ & Hl & E)]];
        rewrite E in Hparse; try discriminate Hparse.
      apply Ok_inj in Hparse. subst net.
      pose proof (be_value_bound packed) as Hb. now rewrite Hl in Hb. }
  pose proof (range_arith_form_aux af net p Hp) as Hr.
  rewrite (Z.mod_small net (2 ^ width af)) in Hr by exact Hnet.
  set (k := width af - p) in *.
  assert (Hk : 0 < 2 ^ k) by (apply pow2_pos; unfold k; lia).
  assert (Hle : 2 ^ k <= 2 ^ width af)
    by (apply Z.pow_le_mono_r; unfold k; lia).
  pose proof (Z.mod_pos_bound net (2 ^ k) Hk) as Hm.
  pose proof (Z.mod_le net (2 ^ k) (proj1 Hnet) Hk) as Hmle.
  assert (Hend : net - net mod 2 ^ k + 2 ^ k - 1 < 2 ^ width af).
  { pose proof (start_bounds (width af) Hw net p Hp) as Hb.
    rewrite start_mod in Hb by assumption. fold k in Hb.
    rewrite (Z.mod_small net (2 ^ width af)) in Hb by exact Hnet. lia. }
  destruct (bin2addr_in_range af (net - net mod 2 ^ k)) as [ts Hts]; [lia |].
  destruct (bin2addr_in_range af (net - net mod 2 ^ k + 2 ^ k - 1))
    as [te Hte]; [lia |].
  exists (net - net mod 2 ^ k), (net - net mod 2 ^ k + 2 ^ k - 1), ts, te.
  repeat split; try assumption; try lia; now apply bin2addr_parse.
Qed.

Lemma parsed_range_formats_witness :
  exists range_start range_end text_start text_end,
    get_ipv4_range 2886729729 12 = Ok (range_start, range_end)
    /\ range_start <= 2886729729 <= range_end
    /\ ipv4_bin2addr range_start = Ok text_start
    /\ ipv4_bin2addr range_end = Ok text_end
    /\ parse_ipv4 text_start = Ok range_start
    /\ parse_ipv4 text_end = Ok range_end.
Proof.
  apply (parsed_range_formats AF_INET "172.16.0.1" 2886729729 12);
    [reflexivity | cbn; lia].
Defined.

(** X19: a lone zero group is not abbreviated: when no two adjacent
    16-bit groups of [numeric_addr] are both zero, [ipv6_bin2addr] returns
    the eight groups in hexadecimal separated by colons, with [0] for a
    zero group and no [::]. *)
Theorem ipv6_lone_zero_not_abbreviated (v : Z) :
  0 <= v < 2 ^ 128 ->
  (forall i, 0 <= i < 7 -> group v i <> 0 \/ group v (i + 1) <> 0) ->
  ipv6_bin2addr v
  = Ok (sprintf_x (Z.to_N (group v 0)) ++ ":"
        ++ sprintf_x (Z.to_N (group v 1)) ++ ":"
        ++ sprintf_x (Z.to_N (group v 2)) ++ ":"
        ++ sprintf_x (Z.to_N (group v 3)) ++ ":"
        ++ sprintf_x (Z.to_N (group v 4)) ++ ":"
        ++ sprintf_x (Z.to_N (group v 5)) ++ ":"
        ++ sprintf_x (Z.to_N (group v 6)) ++ ":"
        ++ sprintf_x (Z.to_N (group v 7))).
Proof.
  intros Hv H. rewrite ipv6_bin2addr_in_range by exact Hv.
  rewrite inet_ntop6_no_adjacent_zeros by exact H. reflexivity.
Qed.

Lemma ipv6_lone_zero_not_abbreviated_witness :
  ipv6_bin2addr 0x00010000000300040005000600070000 = Ok "1:0:3:4:5:6:7:0".
Proof.
  apply (ipv6_lone_zero_not_abbreviated 0x00010000000300040005000600070000);
    [lia |].
  intros i Hi.
  assert (Hc : i = 0 \/ i = 1 \/ i = 2 \/ i = 3 \/ i = 4 \/ i = 5 \/ i = 6)
    by lia.
  repeat (destruct Hc as [-> | Hc];
          [first [left; vm_compute; discriminate
                 | right; vm_compute; discriminate] |]).
  subst i. left. vm_compute. discriminate.
Defined.

(** X20: [parse_ipv6] does not distinguish upper-case from lower-case
    letters: a text and the same text with [A .. Z] replaced by [a .. z]
    have the same outcome, value or error. *)
Theorem parse_ipv6_case_insensitive (addr : string) :
  parse_ipv6 (lowercase addr) = parse_ipv6 addr.
Proof.
  unfold parse_ipv6, socket_inet_pton.
  rewrite has_nul_lowercase, inet_pton6_lowercase. reflexivity.
Qed.
